(** * wewe-rss: the synchronisation orchestrator of [TrpcService]

    A shallow embedding of [apps/server/src/trpc/trpc.service.ts]:
    credential selection and the daily quarantine ledger, the page
    fetcher with its retry, the per-feed refresher, the history crawler
    and the multi-round bulk refresh.

    - The service object and the module-level [blockedAccountsMap] are one
      record, [World]; the Prisma tables are fields of it.
    - Code that can throw lives in the monad [M]: a state transformer
      over [World] whose result is [Return a] or [Throw e].  A thrown
      exception keeps the writes made before it, as in JavaScript.
    - What the process cannot decide (the upstream's answers,
      [Math.random], the clock, the calendar day, a failing database
      call) is read from an oracle [Env], indexed by a counter [tick]
      that advances at every consultation.
    - [getHistoryMpArticles] is an [async] function that other calls can
      interleave with at its [await]s; it is a machine whose states are
      its suspension points. *)

From Stdlib Require Import ZArith String List Bool Lia.
From stdpp Require Import base gmap strings list.

Local Open Scope string_scope.
Local Open Scope Z_scope.

(** ** Data *)

(** [@server/constants] is imported but is not part of the sources at
    hand: [statusMap] and [defaultCount] are parameters of the
    development. *)
Record StatusMap := {
  INVALID : Z;
  ENABLE : Z;
  DISABLE : Z;
}.

(** A row of [prisma.account]. *)
Record Account := {
  account_id : string;
  account_token : string;
  account_status : Z;
}.

(** A row of [prisma.feed]. *)
Record Feed := {
  feed_id : string;
  feed_syncTime : Z;
  feed_hasHistory : Z;
  feed_status : Z;
}.

(** A row of [prisma.article]. *)
Record Article := {
  article_id : string;
  article_mpId : string;
  article_picUrl : string;
  article_publishTime : Z;
  article_title : string;
}.

(** One element of the upstream's answer to
    [/api/v2/platform/mps/:mpId/articles]. *)
Record ArticleItem := {
  item_id : string;
  item_title : string;
  item_picUrl : string;
  item_publishTime : Z;
}.

(** [RefreshArticlesResult]. *)
Record RefreshArticlesResult := {
  message : string;
  successCount : Z;
  errorCount : Z;
  failedFeeds : list string;
  hasHistory : option Z;
  articlesCount : Z;
}.

(** [Omit<RefreshArticlesResult, 'articlesCount'>]. *)
Record RefreshAllResult := {
  all_message : string;
  all_successCount : Z;
  all_errorCount : Z;
  all_failedFeeds : list string;
}.

(** [inProgressHistoryMp]. *)
Record HistoryMp := {
  id : string;
  page : Z;
}.

(** The answer of the upstream to one GET: the data, or a failure whose
    [errMsg] is [error.response?.data?.message || ''] . *)
Inductive HttpResponse :=
| HttpOk (data : list ArticleItem)
| HttpFail (errMsg : string).

(** What can be thrown. *)
Inductive Error :=
| NoAvailableAccount            (* new Error('暂无可用账号!') *)
| RequestRejected (errMsg : string)  (* the axios error, re-rejected *)
| RecordNotFound                (* update / findFirstOrThrow on no row *)
| DatabaseFailure.              (* any other failure of a Prisma call *)

(** ** The environment *)

Record Env := {
  database_type : string;             (* configService 'database'.type *)
  updateDelayTime : Z;                (* configService 'feed' *)
  http_get : nat -> string -> Z -> Account -> HttpResponse;
  Math_random : nat -> nat;
  Date_now : nat -> Z;                (* milliseconds *)
  today_date : nat -> string;         (* dayjs.tz(...).format('YYYY-MM-DD') *)
  db_fault : nat -> bool;             (* the Prisma call at this tick fails *)
}.

(** ** The store *)

Record World := {
  accounts : list Account;
  feeds : list Feed;
  articles : gmap string Article;
  blockedAccountsMap : gmap string (list string);
  inProgressHistoryMp : HistoryMp;
  isRefreshAllMpArticlesRunning : bool;
  tick : nat;
}.

Definition set_accounts (v : list Account) (w : World) : World :=
  {| accounts := v; feeds := feeds w; articles := articles w;
     blockedAccountsMap := blockedAccountsMap w;
     inProgressHistoryMp := inProgressHistoryMp w;
     isRefreshAllMpArticlesRunning := isRefreshAllMpArticlesRunning w;
     tick := tick w |}.

Definition set_feeds (v : list Feed) (w : World) : World :=
  {| accounts := accounts w; feeds := v; articles := articles w;
     blockedAccountsMap := blockedAccountsMap w;
     inProgressHistoryMp := inProgressHistoryMp w;
     isRefreshAllMpArticlesRunning := isRefreshAllMpArticlesRunning w;
     tick := tick w |}.

Definition set_articles (v : gmap string Article) (w : World) : World :=
  {| accounts := accounts w; feeds := feeds w; articles := v;
     blockedAccountsMap := blockedAccountsMap w;
     inProgressHistoryMp := inProgressHistoryMp w;
     isRefreshAllMpArticlesRunning := isRefreshAllMpArticlesRunning w;
     tick := tick w |}.

Definition set_blockedAccountsMap (v : gmap string (list string)) (w : World) : World :=
  {| accounts := accounts w; feeds := feeds w; articles := articles w;
     blockedAccountsMap := v;
     inProgressHistoryMp := inProgressHistoryMp w;
     isRefreshAllMpArticlesRunning := isRefreshAllMpArticlesRunning w;
     tick := tick w |}.

Definition set_inProgressHistoryMp (v : HistoryMp) (w : World) : World :=
  {| accounts := accounts w; feeds := feeds w; articles := articles w;
     blockedAccountsMap := blockedAccountsMap w;
     inProgressHistoryMp := v;
     isRefreshAllMpArticlesRunning := isRefreshAllMpArticlesRunning w;
     tick := tick w |}.

Definition set_isRefreshAllMpArticlesRunning (v : bool) (w : World) : World :=
  {| accounts := accounts w; feeds := feeds w; articles := articles w;
     blockedAccountsMap := blockedAccountsMap w;
     inProgressHistoryMp := inProgressHistoryMp w;
     isRefreshAllMpArticlesRunning := v;
     tick := tick w |}.

Definition set_tick (v : nat) (w : World) : World :=
  {| accounts := accounts w; feeds := feeds w; articles := articles w;
     blockedAccountsMap := blockedAccountsMap w;
     inProgressHistoryMp := inProgressHistoryMp w;
     isRefreshAllMpArticlesRunning := isRefreshAllMpArticlesRunning w;
     tick := v |}.

(** ** The monad *)

Inductive Outcome (A : Type) :=
| Return (a : A)
| Throw (e : Error).
Arguments Return {A} a.
Arguments Throw {A} e.

Definition M (A : Type) : Type := World -> Outcome A * World.

Definition ret {A} (a : A) : M A := fun w => (Return a, w).

Definition throw {A} (e : Error) : M A := fun w => (Throw e, w).

Definition bind {A B} (m : M A) (f : A -> M B) : M B :=
  fun w =>
    match m w with
    | (Return a, w') => f a w'
    | (Throw e, w') => (Throw e, w')
    end.

(** [try { m } catch (e) { h e }]. *)
Definition try_catch {A} (m : M A) (h : Error -> M A) : M A :=
  fun w =>
    match m w with
    | (Return a, w') => (Return a, w')
    | (Throw e, w') => h e w'
    end.

(** [try { m } finally { f }], for a [finally] block that only assigns. *)
Definition try_finally {A} (m : M A) (f : World -> World) : M A :=
  fun w => let '(o, w') := m w in (o, f w').

Definition gets {A} (f : World -> A) : M A := fun w => (Return (f w), w).

Definition modify (f : World -> World) : M unit := fun w => (Return tt, f w).

Notation "'let*' x ':=' m 'in' k" := (bind m (fun x => k))
  (at level 10, x name, m at level 100, k at level 200,
   format "'[v' 'let*'  x  ':='  m  'in' '/' k ']'").
Notation "'do*' m 'in' k" := (bind m (fun _ => k))
  (at level 10, m at level 100, k at level 200,
   format "'[v' 'do*'  m  'in' '/' k ']'").

(** One consultation of the oracle: read at the current [tick], then
    advance it. *)
Definition consult {A} (f : nat -> A) : M A :=
  fun w => (Return (f (tick w)), set_tick (S (tick w)) w).

(** [await new Promise((resolve) => setTimeout(resolve, ms))]: a
    suspension point, without effect on the store. *)
Definition sleep (ms : Z) : M unit := ret tt.

(** [haystack.includes(needle)]. *)
Fixpoint includes (needle haystack : string) : bool :=
  String.prefix needle haystack ||
  match haystack with
  | EmptyString => false
  | String _ rest => includes needle rest
  end.

(** ** Prisma *)

Section Service.

Variable statusMap : StatusMap.
Variable defaultCount : Z.
Variable E : Env.

(** Every Prisma call is one consultation of [db_fault]: the call either
    fails there, before any write, or goes on. *)
Definition prisma {A} (op : M A) : M A :=
  let* fault := consult (db_fault E) in
  if fault then throw DatabaseFailure else op.

(** [prisma.account.findMany({ where, take })]. *)
Definition account_findMany (where_ : Account -> bool) (take_ : nat)
  : M (list Account) :=
  prisma (let* rows := gets accounts in
          ret (take take_ (List.filter where_ rows))).

Fixpoint update_account_row (k : string) (status : Z) (rows : list Account)
  : option (list Account) :=
  match rows with
  | [] => None
  | a :: rest =>
      if String.eqb (account_id a) k
      then Some ({| account_id := account_id a;
                    account_token := account_token a;
                    account_status := status |} :: rest)
      else option_map (cons a) (update_account_row k status rest)
  end.

(** [prisma.account.update({ where: { id }, data: { status } })]. *)
Definition account_update (k : string) (status : Z) : M unit :=
  prisma (let* rows := gets accounts in
          match update_account_row k status rows with
          | Some rows' => modify (set_accounts rows')
          | None => throw RecordNotFound
          end).

(** [prisma.feed.findMany({ where })]. *)
Definition feed_findMany (where_ : Feed -> bool) : M (list Feed) :=
  prisma (let* rows := gets feeds in ret (List.filter where_ rows)).

Fixpoint find_feed (k : string) (rows : list Feed) : option Feed :=
  match rows with
  | [] => None
  | f :: rest => if String.eqb (feed_id f) k then Some f else find_feed k rest
  end.

(** [prisma.feed.findFirstOrThrow({ where: { id } })]. *)
Definition feed_findFirstOrThrow (k : string) : M Feed :=
  prisma (let* rows := gets feeds in
          match find_feed k rows with
          | Some f => ret f
          | None => throw RecordNotFound
          end).

Fixpoint update_feed_row (k : string) (syncTime hasHistory_ : Z)
    (rows : list Feed) : option (list Feed) :=
  match rows with
  | [] => None
  | f :: rest =>
      if String.eqb (feed_id f) k
      then Some ({| feed_id := feed_id f;
                    feed_syncTime := syncTime;
                    feed_hasHistory := hasHistory_;
                    feed_status := feed_status f |} :: rest)
      else option_map (cons f) (update_feed_row k syncTime hasHistory_ rest)
  end.

(** [prisma.feed.update({ where: { id }, data: { syncTime, hasHistory } })]. *)
Definition feed_update (k : string) (syncTime hasHistory_ : Z) : M unit :=
  prisma (let* rows := gets feeds in
          match update_feed_row k syncTime hasHistory_ rows with
          | Some rows' => modify (set_feeds rows')
          | None => throw RecordNotFound
          end).

(** [prisma.article.upsert({ create, update: { publishTime, title },
    where: { id } })] on the table. *)
Definition upsert_row (mpId : string) (it : ArticleItem)
    (tbl : gmap string Article) : gmap string Article :=
  match tbl !! item_id it with
  | Some old =>
      <[item_id it := {| article_id := article_id old;
                         article_mpId := article_mpId old;
                         article_picUrl := article_picUrl old;
                         article_publishTime := item_publishTime it;
                         article_title := item_title it |}]> tbl
  | None =>
      <[item_id it := {| article_id := item_id it;
                         article_mpId := mpId;
                         article_picUrl := item_picUrl it;
                         article_publishTime := item_publishTime it;
                         article_title := item_title it |}]> tbl
  end.

(** One row of [createMany({ data, skipDuplicates: true })]. *)
Definition create_row (mpId : string) (it : ArticleItem)
    (tbl : gmap string Article) : gmap string Article :=
  match tbl !! item_id it with
  | Some _ => tbl
  | None =>
      <[item_id it := {| article_id := item_id it;
                         article_mpId := mpId;
                         article_picUrl := item_picUrl it;
                         article_publishTime := item_publishTime it;
                         article_title := item_title it |}]> tbl
  end.

(** [prisma.$transaction(inserts)]: all the upserts, in order, or none. *)
Definition article_upsert_transaction (mpId : string)
    (items : list ArticleItem) : M unit :=
  prisma (modify (fun w =>
    set_articles (fold_left (fun tbl it => upsert_row mpId it tbl) items
                            (articles w)) w)).

(** [prisma.article.createMany({ data, skipDuplicates: true })]. *)
Definition article_createMany (mpId : string)
    (items : list ArticleItem) : M unit :=
  prisma (modify (fun w =>
    set_articles (fold_left (fun tbl it => create_row mpId it tbl) items
                            (articles w)) w)).

(** [prisma.article.count({ where: { mpId } })]. *)
Definition article_count (mpId : string) : M Z :=
  prisma (let* tbl := gets articles in
          ret (Z.of_nat (size (filter
                 (fun kv : string * Article => article_mpId kv.2 = mpId)
                 tbl)))).

(** ** The quarantine ledger and the response interceptor *)

(** [getTodayDate]. *)
Definition getTodayDate : M string := consult (today_date E).

(** The rejection handler installed by the constructor on
    [this.request.interceptors.response]; [xid] is
    [error.config.headers.xid].  Calls of the logger leave the store
    as it is and are not part of the model.

    Its first statement, [if (errMsg.includes('WeReadError401')) ...
    else if (errMsg.includes('WeReadError429')) ...]: *)
Definition disable_or_log (errMsg xid : string) : M unit :=
  if includes "WeReadError401" errMsg
  then account_update xid (INVALID statusMap)
  else if includes "WeReadError429" errMsg
  then ret tt
  else ret tt.

(** Its second, from [const today = this.getTodayDate()] to the end of
    the [if (Array.isArray(blockedAccounts))] statement: *)
Definition quarantine (errMsg xid : string) : M unit :=
  let* today := getTodayDate in
  let* blockedAccounts := gets (fun w => blockedAccountsMap w !! today) in
  match blockedAccounts with
  | Some l =>
      let l' := if String.eqb xid "" then l else (l ++ [xid])%list in
      modify (fun w =>
        set_blockedAccountsMap (<[today := l']> (blockedAccountsMap w)) w)
  | None =>
      if includes "WeReadError400" errMsg
      then sleep (10 * 1000)
      else ret tt
  end.

(** The handler: both, then [return Promise.reject(error)]. *)
Definition onRejected {A} (errMsg xid : string) : M A :=
  do* disable_or_log errMsg xid in
  do* quarantine errMsg xid in
  throw (RequestRejected errMsg).

(** [removeBlockedAccount]. *)
Definition removeBlockedAccount (vid : string) : M unit :=
  let* today := getTodayDate in
  let* blockedAccounts := gets (fun w => blockedAccountsMap w !! today) in
  match blockedAccounts with
  | Some l =>
      let newBlockedAccounts :=
        List.filter (fun x => negb (String.eqb x vid)) l in
      modify (fun w =>
        set_blockedAccountsMap
          (<[today := newBlockedAccounts]> (blockedAccountsMap w)) w)
  | None => ret tt
  end.

(** [getBlockedAccountIds]; [filter(Boolean)] drops the empty string. *)
Definition getBlockedAccountIds : M (list string) :=
  let* today := getTodayDate in
  let* disabledAccounts :=
    gets (fun w => default [] (blockedAccountsMap w !! today)) in
  ret (List.filter (fun x => negb (String.eqb x "")) disabledAccounts).

(** ** Credential selection *)

(** The [where] clause of [getAvailableAccount]. *)
Definition available (disabledAccounts : list string) (a : Account) : bool :=
  bool_decide (account_status a = ENABLE statusMap
               /\ account_id a ∉ disabledAccounts).

(** [getAvailableAccount].  [Math.floor(Math.random() * n)] is an index
    below [n]: the oracle gives a natural number and the index is its
    remainder by [n], so that every index below [n] can be drawn. *)
Definition getAvailableAccount : M Account :=
  let* disabledAccounts := getBlockedAccountIds in
  let* account := account_findMany (available disabledAccounts) 10 in
  match account with
  | [] => throw NoAvailableAccount
  | a0 :: _ =>
      let* r := consult (Math_random E) in
      ret (nth (r mod length account)%nat account a0)
  end.

(** ** The page fetcher *)

(** [this.request.get(`/api/v2/platform/mps/${mpId}/articles`, ...)],
    through the response interceptor. *)
Definition request_get (mpId : string) (page_ : Z) (account : Account)
  : M (list ArticleItem) :=
  let* res := consult (fun t => http_get E t mpId page_ account) in
  match res with
  | HttpOk data => ret data
  | HttpFail errMsg => onRejected errMsg (account_id account)
  end.

(** [getMpArticles(mpId, page, retryCount)].  The credential is drawn
    before the [try]: a throw of [getAvailableAccount] is not retried. *)
Fixpoint getMpArticles (mpId : string) (page_ : Z) (retryCount : nat)
  : M (list ArticleItem) :=
  let* account := getAvailableAccount in
  try_catch (request_get mpId page_ account)
    (fun err =>
       match retryCount with
       | S n => getMpArticles mpId page_ n
       | O => throw err
       end).

(** ** The refresher *)

Definition refresh_succeeded (mpId : string) (hasHistory_ : Z) (n : Z)
  : RefreshArticlesResult :=
  {| message := String.append "成功更新订阅源 " (String.append mpId "。");
     successCount := 1;
     errorCount := 0;
     failedFeeds := [];
     hasHistory := Some hasHistory_;
     articlesCount := n |}.

Definition refresh_failed (mpId : string) : RefreshArticlesResult :=
  {| message := String.append "更新订阅源 " (String.append mpId " 失败。");
     successCount := 0;
     errorCount := 1;
     failedFeeds := [mpId];
     hasHistory := Some 1;
     articlesCount := 0 |}.

(** The storage step of the [try] block:
    [if (articles.length > 0) { ... }]. *)
Definition store_page (mpId : string) (articles_ : list ArticleItem) : M unit :=
  if 0 <? Z.of_nat (length articles_)
  then if String.eqb (database_type E) "sqlite"
       then article_upsert_transaction mpId articles_
       else article_createMany mpId articles_
  else ret tt.

(** The [try] block of [refreshMpArticlesAndUpdateFeed]. *)
Definition refresh_try (mpId : string) (page_ : Z) : M RefreshArticlesResult :=
  let* articles_ := getMpArticles mpId page_ 3 in
  do* store_page mpId articles_ in
  let hasHistory_ :=
    if Z.of_nat (length articles_) <? defaultCount then 0 else 1 in
  let* now := consult (Date_now E) in
  do* feed_update mpId (now / 1000) hasHistory_ in
  ret (refresh_succeeded mpId hasHistory_ (Z.of_nat (length articles_))).

(** [refreshMpArticlesAndUpdateFeed(mpId, page)]. *)
Definition refreshMpArticlesAndUpdateFeed (mpId : string) (page_ : Z)
  : M RefreshArticlesResult :=
  try_catch (refresh_try mpId page_)
    (fun _ => ret (refresh_failed mpId)).

(** ** The history crawler *)

(** [Math.ceil(a / b)] on integers, for [b] other than zero (JavaScript
    gives [NaN] or an infinity at zero; the quotient of two counts is
    exact in a double far beyond any table size). *)
Definition Math_ceil_div (a b : Z) : Z := - ((- a) / b).

(** The [await]s of [getHistoryMpArticles], with the locals that are
    live across each; [Finished] carries how the call ended. *)
Inductive CrawlPc :=
| AwaitFindFeed
| AwaitCount
| AwaitRefresh (i : nat) (page_ : Z)
| AwaitDelay (i : nat)
| Finished (o : Outcome unit).

(** Leaving the [try]: the [finally] block, then the end of the call. *)
Definition crawl_exit (o : Outcome unit) (w : World) : CrawlPc * World :=
  (Finished o, set_inProgressHistoryMp {| id := ""; page := 1 |} w).

(** The head of [while (i-- > 0)]: the test, the check of the shared
    record, and the call of the refresher, whose [page] argument is
    read here. *)
Definition loop_head (mpId : string) (i : nat) (w : World) : CrawlPc * World :=
  match i with
  | O => crawl_exit (Return tt) w
  | S i' =>
      if negb (String.eqb (id (inProgressHistoryMp w)) mpId)
      then crawl_exit (Return tt) w
      else (AwaitRefresh i' (page (inProgressHistoryMp w)), w)
  end.

(** The call itself, up to its first [await] (or its [return]). *)
Definition getHistoryMpArticles (mpId : string) (w : World) : CrawlPc * World :=
  if String.eqb (id (inProgressHistoryMp w)) mpId
  then (Finished (Return tt), w)
  else
    let w1 := set_inProgressHistoryMp {| id := mpId; page := 1 |} w in
    if String.eqb (id (inProgressHistoryMp w1)) ""
    then (Finished (Return tt), w1)
    else (AwaitFindFeed, w1).

(** Resuming the call [getHistoryMpArticles(mpId)] suspended at [pc]: the
    awaited operation completes and the code runs to the next [await].
    The refresher reads and writes neither [inProgressHistoryMp] nor the
    bulk-refresh flag, and its own [await]s are taken in one step.
    [this.inProgressHistoryMp.page = ...] and [page++] assign a field of
    whatever object the record is at that moment. *)
Definition resume (mpId : string) (pc : CrawlPc) (w : World) : CrawlPc * World :=
  match pc with
  | AwaitFindFeed =>
      match feed_findFirstOrThrow mpId w with
      | (Throw e, w') => crawl_exit (Throw e) w'
      | (Return feed, w') =>
          if feed_hasHistory feed =? 0
          then crawl_exit (Return tt) w'
          else (AwaitCount, w')
      end
  | AwaitCount =>
      match article_count mpId w with
      | (Throw e, w') => crawl_exit (Throw e) w'
      | (Return total, w') =>
          loop_head mpId 1000
            (set_inProgressHistoryMp
               {| id := id (inProgressHistoryMp w');
                  page := Math_ceil_div total defaultCount |} w')
      end
  | AwaitRefresh i page_ =>
      match refreshMpArticlesAndUpdateFeed mpId page_ w with
      | (Throw e, w') => crawl_exit (Throw e) w'
      | (Return r, w') =>
          let hasHistory_ := default 1 (hasHistory r) in
          if hasHistory_ <? 1
          then crawl_exit (Return tt) w'
          else (AwaitDelay i,
                set_inProgressHistoryMp
                  {| id := id (inProgressHistoryMp w');
                     page := page (inProgressHistoryMp w') + 1 |} w')
      end
  | AwaitDelay i => loop_head mpId i w
  | Finished o => (Finished o, w)
  end.

(** [n] resumptions in a row, nothing else running in between. *)
Fixpoint resume_n (n : nat) (mpId : string) (pc : CrawlPc) (w : World)
  : CrawlPc * World :=
  match n with
  | O => (pc, w)
  | S k => let '(pc', w') := resume mpId pc w in resume_n k mpId pc' w'
  end.

Definition is_finished (pc : CrawlPc) : bool :=
  match pc with Finished _ => true | _ => false end.

(** ** The bulk refresh *)

(** [Set.prototype.add], on a set kept in insertion order. *)
Definition Set_add (x : string) (s : list string) : list string :=
  if bool_decide (x ∈ s) then s else (s ++ [x])%list.

(** The test that puts a feed into [currentRoundFailedFeeds]. *)
Definition round_failed (result : RefreshArticlesResult) : bool :=
  (0 <? errorCount result) || (articlesCount result =? 0).

(** [for (const id of feedsToUpdate) { ... }]. *)
Fixpoint round_feeds (feedsToUpdate currentRoundFailedFeeds : list string)
  : M (list string) :=
  match feedsToUpdate with
  | [] => ret currentRoundFailedFeeds
  | id_ :: rest =>
      let* failed :=
        try_catch
          (let* result := refreshMpArticlesAndUpdateFeed id_ 1 in
           ret (if round_failed result
                then Set_add id_ currentRoundFailedFeeds
                else currentRoundFailedFeeds))
          (fun _ => ret (Set_add id_ currentRoundFailedFeeds)) in
      do* sleep (updateDelayTime E * 1000) in
      round_feeds rest failed
  end.

Definition maxRounds : nat := 8.

(** The variables of the round loop. *)
Record Rounds := {
  round : nat;
  feedsToUpdate : list string;
  finalFailedFeeds : list string;
}.

(** [for (let round = 1; round <= maxRounds; round++) { ... }], from the
    state [st], with [budget] the number of values of [round] still
    within [maxRounds].  The result is the state at the exit of the
    loop. *)
Fixpoint rounds (budget : nat) (st : Rounds) : M Rounds :=
  match budget with
  | O => ret st
  | S budget' =>
      let* failed := round_feeds (feedsToUpdate st) [] in
      if (length failed =? 0)%nat
      then ret {| round := round st;
                  feedsToUpdate := feedsToUpdate st;
                  finalFailedFeeds := failed |}
      else rounds budget' {| round := S (round st);
                           feedsToUpdate := failed;
                           finalFailedFeeds := failed |}
  end.

Definition already_running : RefreshAllResult :=
  {| all_message := "任务已在运行中";
     all_successCount := -1;
     all_errorCount := -1;
     all_failedFeeds := [] |}.

Definition enabled_feed (mp : Feed) : bool :=
  feed_status mp =? ENABLE statusMap.

(** The [try] block of [refreshAllMpArticlesAndUpdateFeed]. *)
Definition refreshAll_try : M RefreshAllResult :=
  let* allMps := feed_findMany enabled_feed in
  if (length allMps =? 0)%nat
  then ret {| all_message := "没有需要更新的启用状态的订阅源。";
              all_successCount := 0;
              all_errorCount := 0;
              all_failedFeeds := [] |}
  else
    let* st := rounds maxRounds {| round := 1;
                                   feedsToUpdate := map feed_id allMps;
                                   finalFailedFeeds := [] |} in
    let successCount_ :=
      Z.of_nat (length allMps) - Z.of_nat (length (finalFailedFeeds st)) in
    let errorCount_ := Z.of_nat (length (finalFailedFeeds st)) in
    ret {| all_message := "更新流程结束";
           all_successCount := successCount_;
           all_errorCount := errorCount_;
           all_failedFeeds := finalFailedFeeds st |}.

(** Its [catch] block. *)
Definition refreshAll_catch (e : Error) : M RefreshAllResult :=
  let* enabled := feed_findMany enabled_feed in
  ret {| all_message := "发生意外错误";
         all_successCount := 0;
         all_errorCount := Z.of_nat (length enabled);
         all_failedFeeds := [] |}.

(** [refreshAllMpArticlesAndUpdateFeed()]. *)
Definition refreshAllMpArticlesAndUpdateFeed : M RefreshAllResult :=
  let* running := gets isRefreshAllMpArticlesRunning in
  if running
  then ret already_running
  else
    do* modify (set_isRefreshAllMpArticlesRunning true) in
    try_finally (try_catch refreshAll_try refreshAll_catch)
                (set_isRefreshAllMpArticlesRunning false).

End Service.

(** ** Concrete stores and environments

    Used to run the definitions above. *)

Definition statusMap0 : StatusMap := {| INVALID := 0; ENABLE := 1; DISABLE := 2 |}.

Definition item1 : ArticleItem :=
  {| item_id := "a1"; item_title := "t1"; item_picUrl := "p1";
     item_publishTime := 1699990000 |}.

Definition item2 : ArticleItem :=
  {| item_id := "a2"; item_title := "t2"; item_picUrl := "p2";
     item_publishTime := 1699980000 |}.

Definition account1 : Account :=
  {| account_id := "101"; account_token := "tok1"; account_status := 1 |}.

Definition account2 : Account :=
  {| account_id := "102"; account_token := "tok2"; account_status := 1 |}.

Definition account3 : Account :=
  {| account_id := "103"; account_token := "tok3"; account_status := 0 |}.

Definition feedA : Feed :=
  {| feed_id := "MP_A"; feed_syncTime := 0; feed_hasHistory := 1;
     feed_status := 1 |}.

Definition feedB : Feed :=
  {| feed_id := "MP_B"; feed_syncTime := 0; feed_hasHistory := 1;
     feed_status := 1 |}.

(** An upstream that gives the same answer to every request, a healthy
    database, a clock stopped at 1700000000000 ms. *)
Definition env_const (resp : HttpResponse) : Env :=
  {| database_type := "sqlite";
     updateDelayTime := 2;
     http_get := fun _ _ _ _ => resp;
     Math_random := fun t => t;
     Date_now := fun _ => 1700000000000;
     today_date := fun _ => "2024-01-01";
     db_fault := fun _ => false |}.

(** An upstream that knows articles for [MP_A] only. *)
Definition env_A_only : Env :=
  {| database_type := "sqlite";
     updateDelayTime := 2;
     http_get := fun _ mpId _ _ =>
       if String.eqb mpId "MP_A" then HttpOk [item1; item2]
       else HttpFail "WeReadError400";
     Math_random := fun t => t;
     Date_now := fun _ => 1700000000000;
     today_date := fun _ => "2024-01-01";
     db_fault := fun _ => false |}.

Definition world0 : World :=
  {| accounts := [account1; account2; account3];
     feeds := [feedA; feedB];
     articles := ∅;
     blockedAccountsMap := ∅;
     inProgressHistoryMp := {| id := ""; page := 1 |};
     isRefreshAllMpArticlesRunning := false;
     tick := 0 |}.

(** The environment of [env_A_only] with a database whose first call
    fails. *)
Definition env_listing_fails : Env :=
  {| database_type := "sqlite";
     updateDelayTime := 2;
     http_get := http_get env_A_only;
     Math_random := fun t => t;
     Date_now := fun _ => 1700000000000;
     today_date := fun _ => "2024-01-01";
     db_fault := fun t => Nat.eqb t 0 |}.

(** [world0] once today's list of the ledger exists. *)
Definition world_listed : World :=
  set_blockedAccountsMap {[ "2024-01-01" := ["102"] ]} world0.

(** [world0] while a history crawl of [MP_A] waits at page 3. *)
Definition world_crawling_A : World :=
  set_inProgressHistoryMp {| id := "MP_A"; page := 3 |} world0.

(** ** Vocabulary of the statements *)

(** What a computation leaves alone: the part of the store owned by the
    crawler and by the bulk refresh, and the direction of [tick]. *)
Definition keeps_service_state (w w' : World) : Prop :=
  inProgressHistoryMp w' = inProgressHistoryMp w
  /\ isRefreshAllMpArticlesRunning w' = isRefreshAllMpArticlesRunning w
  /\ (tick w <= tick w')%nat.

(** The same, and the feed and article tables too. *)
Definition keeps_tables (w w' : World) : Prop :=
  feeds w' = feeds w /\ articles w' = articles w
  /\ keeps_service_state w w'.

(** The ids that [getBlockedAccountIds] lists at the store [w]. *)
Definition quarantined_today (E : Env) (w : World) : list string :=
  List.filter (fun x => negb (String.eqb x ""))
    (default [] (blockedAccountsMap w !! today_date E (tick w))).

(** An enabled credential that is not quarantined today. *)
Definition eligible (statusMap : StatusMap) (E : Env) (w : World)
    (a : Account) : Prop :=
  account_status a = ENABLE statusMap
  /\ account_id a ∉ quarantined_today E w.

(** The ways the [try] block can raise: in the fetch, in the storage of
    the page, or in the update of the feed row; the index is the store
    at the moment of the throw. *)
Inductive refresh_raises (statusMap : StatusMap) (defaultCount : Z) (E : Env)
    (mpId : string) (page_ : Z) (w : World) : World -> Prop :=
| fetch_raises e w1 :
    getMpArticles statusMap E mpId page_ 3 w = (Throw e, w1) ->
    refresh_raises statusMap defaultCount E mpId page_ w w1
| store_raises arts w1 e w2 :
    getMpArticles statusMap E mpId page_ 3 w = (Return arts, w1) ->
    store_page E mpId arts w1 = (Throw e, w2) ->
    refresh_raises statusMap defaultCount E mpId page_ w w2
| update_raises arts w1 w2 e w3 :
    getMpArticles statusMap E mpId page_ 3 w = (Return arts, w1) ->
    store_page E mpId arts w1 = (Return tt, w2) ->
    feed_update E mpId (Date_now E (tick w2) / 1000)
      (if Z.of_nat (length arts) <? defaultCount then 0 else 1)
      (set_tick (S (tick w2)) w2) = (Throw e, w3) ->
    refresh_raises statusMap defaultCount E mpId page_ w w3.

(** The calls of the refresher that one round over [feeds] makes from
    the store [w], in order, each with its result. *)
Fixpoint round_calls (statusMap : StatusMap) (defaultCount : Z) (E : Env)
    (feeds_ : list string) (w : World)
  : list (string * RefreshArticlesResult) :=
  match feeds_ with
  | [] => []
  | id_ :: rest =>
      match refreshMpArticlesAndUpdateFeed statusMap defaultCount E id_ 1 w with
      | (Return r, w') =>
          (id_, r) :: round_calls statusMap defaultCount E rest w'
      | (Throw _, w') => round_calls statusMap defaultCount E rest w'
      end
  end.

(** An upstream that rejects every request for [mpId]. *)
Definition upstream_rejects (E : Env) (mpId : string) : Prop :=
  forall t page_ account, exists errMsg,
    http_get E t mpId page_ account = HttpFail errMsg.

(** What an upsert never changes in a row that exists. *)
Definition article_identity (a : Article) : string * string * string :=
  (article_id a, article_mpId a, article_picUrl a).

(** The row that [prisma.article.upsert] leaves under the item's id,
    from what was there. *)
Definition upsert_cell (mpId : string) (it : ArticleItem)
    (o : option Article) : Article :=
  match o with
  | Some old =>
      {| article_id := article_id old;
         article_mpId := article_mpId old;
         article_picUrl := article_picUrl old;
         article_publishTime := item_publishTime it;
         article_title := item_title it |}
  | None =>
      {| article_id := item_id it;
         article_mpId := mpId;
         article_picUrl := item_picUrl it;
         article_publishTime := item_publishTime it;
         article_title := item_title it |}
  end.

(** The row that one element of [createMany] leaves under its id. *)
Definition create_cell (mpId : string) (it : ArticleItem)
    (o : option Article) : Article :=
  match o with
  | Some old => old
  | None =>
      {| article_id := item_id it;
         article_mpId := mpId;
         article_picUrl := item_picUrl it;
         article_publishTime := item_publishTime it;
         article_title := item_title it |}
  end.

(** One item of a page, seen from the key [k] of the table: the cell
    under [k] changes only for an item whose id is [k]. *)
Definition cell_step (c : ArticleItem -> option Article -> Article)
    (k : string) (o : option Article) (it : ArticleItem) : option Article :=
  if String.eqb (item_id it) k then Some (c it o) else o.

(** The table that the storage step writes for a page. *)
Definition stored_page (E : Env) (mpId : string) (items : list ArticleItem)
    (tbl : gmap string Article) : gmap string Article :=
  if String.eqb (database_type E) "sqlite"
  then fold_left (fun tbl it => upsert_row mpId it tbl) items tbl
  else fold_left (fun tbl it => create_row mpId it tbl) items tbl.

(** An upper bound on the resumptions a suspended crawl still needs. *)
Definition crawl_measure (pc : CrawlPc) : nat :=
  match pc with
  | AwaitFindFeed => 2002
  | AwaitCount => 2001
  | AwaitRefresh i _ => 2 * i + 2
  | AwaitDelay i => 2 * i + 1
  | Finished _ => 0
  end.

(** The ids of the enabled feeds, in table order: what a bulk refresh
    starts from. *)
Definition enabled_ids (statusMap : StatusMap) (w : World) : list string :=
  map feed_id (List.filter (enabled_feed statusMap) (feeds w)).

(** A computation that neither reads nor writes [inProgressHistoryMp]:
    on a store with another record it does the same and leaves that
    record in place. *)
Definition ignores_record {A} (m : M A) : Prop :=
  forall rec w,
    m (set_inProgressHistoryMp rec w)
    = ((m w).1, set_inProgressHistoryMp rec (m w).2).

(** Two calls of [getHistoryMpArticles] suspended at once, one for [A]
    and one for [B], over the one store; a schedule says which of them
    the event loop resumes next. *)
Inductive Turn := ResumeA | ResumeB.

Record Calls := {
  callA : CrawlPc;
  callB : CrawlPc;
  store : World;
}.

Definition resume_turn (statusMap : StatusMap) (defaultCount : Z) (E : Env)
    (A B : string) (s : Calls) (t : Turn) : Calls :=
  match t with
  | ResumeA =>
      let r := resume statusMap defaultCount E A (callA s) (store s) in
      {| callA := r.1; callB := callB s; store := r.2 |}
  | ResumeB =>
      let r := resume statusMap defaultCount E B (callB s) (store s) in
      {| callA := callA s; callB := r.1; store := r.2 |}
  end.

Definition run_turns (statusMap : StatusMap) (defaultCount : Z) (E : Env)
    (A B : string) (sched : list Turn) (s : Calls) : Calls :=
  fold_left (resume_turn statusMap defaultCount E A B) sched s.

Definition is_turn (t u : Turn) : bool :=
  match t, u with
  | ResumeA, ResumeA | ResumeB, ResumeB => true
  | _, _ => false
  end.

(** How many times a schedule resumes the call [t]. *)
Definition turns (t : Turn) (sched : list Turn) : nat :=
  length (List.filter (is_turn t) sched).

(** What holds of two calls once the record has been taken from [A]:
    the record does not name [A]; after [A]'s end its id is empty;
    after both ends it is [{id: '', page: 1}]. *)
Definition record_taken (A : string) (s : Calls) : Prop :=
  id (inProgressHistoryMp (store s)) <> A
  /\ (is_finished (callA s) = true ->
      id (inProgressHistoryMp (store s)) = "")
  /\ (is_finished (callA s) = true -> is_finished (callB s) = true ->
      inProgressHistoryMp (store s) = {| id := ""; page := 1 |}).

(** Where a call whose record was taken away can be after [n] of its
    own resumptions: anywhere at first, then at an [await] that is not a
    call of the refresher, then at its end. *)
Definition winding_down (n : nat) (pc : CrawlPc) : Prop :=
  match n with
  | O => True
  | S O => match pc with
           | AwaitCount | AwaitDelay _ | Finished _ => True
           | _ => False
           end
  | S (S _) => is_finished pc = true
  end.

(** * Properties *)

(** ** Running the monad *)

Ltac unfold_monad :=
  unfold prisma, consult, gets, modify, sleep, try_finally, try_catch,
    bind, ret, throw in *.

Lemma keeps_service_state_refl w : keeps_service_state w w.
Proof. repeat split; reflexivity || lia. Qed.

Lemma keeps_service_state_trans w1 w2 w3 :
  keeps_service_state w1 w2 -> keeps_service_state w2 w3 ->
  keeps_service_state w1 w3.
Proof.
  intros (H1 & H2 & H3) (H4 & H5 & H6).
  repeat split; [congruence | congruence | lia].
Qed.

Lemma keeps_tables_refl w : keeps_tables w w.
Proof. repeat split; reflexivity || lia. Qed.

Lemma keeps_tables_trans w1 w2 w3 :
  keeps_tables w1 w2 -> keeps_tables w2 w3 -> keeps_tables w1 w3.
Proof.
  intros (H1 & H2 & H3) (H4 & H5 & H6).
  split; [congruence | split; [congruence |]].
  eapply keeps_service_state_trans; eassumption.
Qed.

Lemma keeps_tables_service w w' : keeps_tables w w' -> keeps_service_state w w'.
Proof. intros (_ & _ & H). exact H. Qed.

Section Frames.

Variable statusMap : StatusMap.
Variable E : Env.

Lemma getTodayDate_run w :
  getTodayDate E w = (Return (today_date E (tick w)), set_tick (S (tick w)) w).
Proof. reflexivity. Qed.

Lemma getBlockedAccountIds_run w :
  getBlockedAccountIds E w =
  (Return (List.filter (fun x => negb (String.eqb x ""))
             (default [] (blockedAccountsMap w !! today_date E (tick w)))),
   set_tick (S (tick w)) w).
Proof. reflexivity. Qed.

Lemma account_update_keeps k st w o w' :
  account_update E k st w = (o, w') -> keeps_tables w w'.
Proof.
  unfold account_update. unfold_monad. simpl.
  destruct (db_fault E (tick w)); simpl.
  - intros [= <- <-]. repeat split; simpl; lia.
  - destruct (update_account_row k st (accounts w)); intros [= <- <-];
      repeat split; simpl; lia.
Qed.

Lemma account_update_ledger k st w o w' :
  account_update E k st w = (o, w') ->
  blockedAccountsMap w' = blockedAccountsMap w.
Proof.
  unfold account_update. unfold_monad. simpl.
  destruct (db_fault E (tick w)); simpl.
  - intros [= <- <-]. reflexivity.
  - destruct (update_account_row k st (accounts w)); intros [= <- <-];
      reflexivity.
Qed.

Lemma disable_or_log_keeps errMsg xid w o w' :
  disable_or_log statusMap E errMsg xid w = (o, w') ->
  keeps_tables w w' /\ blockedAccountsMap w' = blockedAccountsMap w.
Proof.
  unfold disable_or_log.
  destruct (includes "WeReadError401" errMsg).
  - intros H. split;
      [eapply account_update_keeps | eapply account_update_ledger]; exact H.
  - destruct (includes "WeReadError429" errMsg); intros [= <- <-];
      (split; [apply keeps_tables_refl | reflexivity]).
Qed.

(** The quarantine step never throws; its effect on the ledger. *)
Lemma quarantine_run errMsg xid w :
  exists w',
    quarantine E errMsg xid w = (Return tt, w')
    /\ keeps_tables w w'
    /\ blockedAccountsMap w' =
       match blockedAccountsMap w !! today_date E (tick w) with
       | Some l =>
           <[today_date E (tick w) :=
               if String.eqb xid "" then l else (l ++ [xid])%list]>
             (blockedAccountsMap w)
       | None => blockedAccountsMap w
       end.
Proof.
  unfold quarantine, getTodayDate. unfold_monad. simpl.
  destruct (blockedAccountsMap w !! today_date E (tick w)); simpl.
  - eexists. split; [reflexivity|]. repeat split; simpl; lia.
  - destruct (includes "WeReadError400" errMsg); eexists;
      (split; [reflexivity|]); repeat split; simpl; lia.
Qed.

Lemma onRejected_keeps {A} errMsg xid w (o : Outcome A) w' :
  onRejected statusMap E errMsg xid w = (o, w') -> keeps_tables w w'.
Proof.
  unfold onRejected. unfold bind at 1.
  destruct (disable_or_log statusMap E errMsg xid w) as [[[]|e] w1] eqn:Hd;
    apply disable_or_log_keeps in Hd; destruct Hd as [Hd _];
    [|intros [= <- <-]; exact Hd].
  unfold bind at 1.
  destruct (quarantine_run errMsg xid w1) as (w2 & Hq & Hk & _).
  rewrite Hq. intros [= <- <-].
  eapply keeps_tables_trans; eassumption.
Qed.

Lemma getAvailableAccount_keeps w o w' :
  getAvailableAccount statusMap E w = (o, w') -> keeps_tables w w'.
Proof.
  unfold getAvailableAccount, account_findMany, getBlockedAccountIds,
    getTodayDate. unfold_monad. simpl.
  destruct (db_fault E (S (tick w))); simpl.
  - intros [= <- <-]. repeat split; simpl; lia.
  - destruct (take 10 _); intros [= <- <-]; repeat split; simpl; lia.
Qed.

Lemma getAvailableAccount_ticks w o w' :
  getAvailableAccount statusMap E w = (o, w') -> (tick w < tick w')%nat.
Proof.
  unfold getAvailableAccount, account_findMany, getBlockedAccountIds,
    getTodayDate. unfold_monad. simpl.
  destruct (db_fault E (S (tick w))); simpl.
  - intros [= <- <-]. simpl. lia.
  - destruct (take 10 _); intros [= <- <-]; simpl; lia.
Qed.

Lemma request_get_keeps mpId page_ account w o w' :
  request_get statusMap E mpId page_ account w = (o, w') -> keeps_tables w w'.
Proof.
  unfold request_get. unfold bind, consult. simpl.
  destruct (http_get E (tick w) mpId page_ account).
  - intros [= <- <-]. repeat split; simpl; lia.
  - intros H. apply onRejected_keeps in H.
    eapply keeps_tables_trans; [|exact H]. repeat split; simpl; lia.
Qed.

Lemma getMpArticles_keeps mpId page_ retryCount w o w' :
  getMpArticles statusMap E mpId page_ retryCount w = (o, w') ->
  keeps_tables w w'.
Proof.
  revert w o w'. induction retryCount as [|n IH]; intros w o w'; simpl;
    unfold bind, try_catch;
    destruct (getAvailableAccount statusMap E w) as [[a|e] w1] eqn:Ha;
    apply getAvailableAccount_keeps in Ha;
    try (intros [= <- <-]; exact Ha);
    destruct (request_get statusMap E mpId page_ a w1) as [[l|e] w2] eqn:Hr;
    apply request_get_keeps in Hr;
    pose proof (keeps_tables_trans _ _ _ Ha Hr) as H12.
  - intros [= <- <-]. exact H12.
  - intros [= <- <-]. exact H12.
  - intros [= <- <-]. exact H12.
  - intros H. apply IH in H. eapply keeps_tables_trans; eassumption.
Qed.

(** Every fetch consults the oracle. *)
Lemma getMpArticles_ticks mpId page_ retryCount w o w' :
  getMpArticles statusMap E mpId page_ retryCount w = (o, w') ->
  (tick w < tick w')%nat.
Proof.
  destruct retryCount as [|n]; simpl; unfold bind;
    destruct (getAvailableAccount statusMap E w) as [[a|e] w1] eqn:Ha;
    apply getAvailableAccount_ticks in Ha;
    try (intros [= <- <-]; exact Ha);
    unfold try_catch;
    destruct (request_get statusMap E mpId page_ a w1) as [[l|e] w2] eqn:Hr;
    apply request_get_keeps in Hr; destruct Hr as (_ & _ & _ & _ & Hr);
    try (intros [= <- <-]; lia).
  intros H. apply getMpArticles_keeps in H.
  destruct H as (_ & _ & _ & _ & H). lia.
Qed.

End Frames.

(** ** The refresher, step by step *)

Lemma update_feed_row_find k s h rows rows' :
  update_feed_row k s h rows = Some rows' ->
  exists f, find_feed k rows' = Some f
            /\ feed_syncTime f = s /\ feed_hasHistory f = h.
Proof.
  revert rows'. induction rows as [|f rest IH]; intros rows'; simpl.
  - discriminate.
  - destruct (String.eqb (feed_id f) k) eqn:Hk.
    + intros [= <-]. simpl. rewrite Hk. eexists. repeat split.
    + destruct (update_feed_row k s h rest) as [rest'|]; [|discriminate].
      intros [= <-]. simpl. rewrite Hk. apply IH. reflexivity.
Qed.

Section Refresher.

Variable statusMap : StatusMap.
Variable defaultCount : Z.
Variable E : Env.

Lemma store_page_keeps mpId arts w o w' :
  store_page E mpId arts w = (o, w') ->
  feeds w' = feeds w /\ keeps_service_state w w'.
Proof.
  unfold store_page, article_upsert_transaction, article_createMany.
  unfold_monad.
  destruct (0 <? Z.of_nat (length arts)); simpl.
  - destruct (String.eqb (database_type E) "sqlite"); simpl;
      destruct (db_fault E (tick w)); simpl; intros [= <- <-];
      repeat split; simpl; lia.
  - intros [= <- <-]. repeat split; simpl; lia.
Qed.

Lemma feed_update_run k s h w o w' :
  feed_update E k s h w = (o, w') ->
  keeps_service_state w w' /\ tick w' = S (tick w)
  /\ ((o = Return tt
       /\ exists f, find_feed k (feeds w') = Some f
                    /\ feed_syncTime f = s /\ feed_hasHistory f = h)
      \/ (exists e, o = Throw e) /\ feeds w' = feeds w).
Proof.
  unfold feed_update. unfold_monad. simpl.
  destruct (db_fault E (tick w)); simpl.
  - intros [= <- <-]. repeat split; simpl; try lia. right. eauto.
  - destruct (update_feed_row k s h (feeds w)) as [rows'|] eqn:Hu;
      intros [= <- <-]; repeat split; simpl; try lia.
    + left. split; [reflexivity|]. eapply update_feed_row_find. exact Hu.
    + right. eauto.
Qed.

(** The [try] block, in terms of its three steps. *)
Lemma refresh_try_unfold mpId page_ w :
  refresh_try statusMap defaultCount E mpId page_ w =
  match getMpArticles statusMap E mpId page_ 3 w with
  | (Throw e, w1) => (Throw e, w1)
  | (Return arts, w1) =>
      match store_page E mpId arts w1 with
      | (Throw e, w2) => (Throw e, w2)
      | (Return _, w2) =>
          let h := if Z.of_nat (length arts) <? defaultCount then 0 else 1 in
          match feed_update E mpId (Date_now E (tick w2) / 1000) h
                  (set_tick (S (tick w2)) w2) with
          | (Throw e, w3) => (Throw e, w3)
          | (Return _, w3) =>
              (Return (refresh_succeeded mpId h (Z.of_nat (length arts))), w3)
          end
      end
  end.
Proof.
  unfold refresh_try. unfold bind at 1.
  destruct (getMpArticles statusMap E mpId page_ 3 w) as [[arts|e] w1];
    [|reflexivity].
  unfold bind at 1.
  destruct (store_page E mpId arts w1) as [[[]|e] w2]; [|reflexivity].
  unfold bind at 1. unfold consult at 1. cbv beta iota.
  unfold bind at 1.
  destruct (feed_update E mpId _ _ _) as [[[]|e] w3]; reflexivity.
Qed.

(** The refresher has a result on every store. *)
Lemma refresh_returns mpId page_ w :
  exists r w',
    refreshMpArticlesAndUpdateFeed statusMap defaultCount E mpId page_ w
    = (Return r, w').
Proof.
  unfold refreshMpArticlesAndUpdateFeed, try_catch.
  destruct (refresh_try statusMap defaultCount E mpId page_ w) as [[r|e] w1];
    unfold ret; eauto.
Qed.

(** Its result is the failure shape exactly when the [try] block threw. *)
Lemma refresh_run mpId page_ w :
  refreshMpArticlesAndUpdateFeed statusMap defaultCount E mpId page_ w =
  match refresh_try statusMap defaultCount E mpId page_ w with
  | (Return r, w1) => (Return r, w1)
  | (Throw _, w1) => (Return (refresh_failed mpId), w1)
  end.
Proof. reflexivity. Qed.

Lemma refresh_try_keeps mpId page_ w o w' :
  refresh_try statusMap defaultCount E mpId page_ w = (o, w') ->
  keeps_service_state w w'.
Proof.
  rewrite refresh_try_unfold.
  destruct (getMpArticles statusMap E mpId page_ 3 w) as [[arts|e] w1] eqn:Hg;
    apply getMpArticles_keeps, keeps_tables_service in Hg;
    [|intros [= <- <-]; exact Hg].
  destruct (store_page E mpId arts w1) as [[[]|e] w2] eqn:Hs;
    apply store_page_keeps in Hs; destruct Hs as [_ Hs];
    pose proof (keeps_service_state_trans _ _ _ Hg Hs) as H02;
    [|intros [= <- <-]; exact H02].
  cbv zeta.
  destruct (feed_update E mpId _ _ _) as [[[]|e] w3] eqn:Hf;
    apply feed_update_run in Hf; destruct Hf as (Hf & _ & _);
    intros [= <- <-];
    (eapply keeps_service_state_trans; [exact H02|]);
    (eapply keeps_service_state_trans; [|exact Hf]);
    repeat split; simpl; lia.
Qed.

Lemma refresh_keeps mpId page_ w o w' :
  refreshMpArticlesAndUpdateFeed statusMap defaultCount E mpId page_ w = (o, w') ->
  keeps_service_state w w'.
Proof.
  rewrite refresh_run.
  destruct (refresh_try statusMap defaultCount E mpId page_ w) as [[r|e] w1] eqn:Ht;
    apply refresh_try_keeps in Ht; intros [= <- <-]; exact Ht.
Qed.

(** A call of the refresher advances the oracle's counter. *)
Lemma refresh_ticks mpId page_ w o w' :
  refreshMpArticlesAndUpdateFeed statusMap defaultCount E mpId page_ w = (o, w') ->
  (tick w < tick w')%nat.
Proof.
  rewrite refresh_run, refresh_try_unfold.
  destruct (getMpArticles statusMap E mpId page_ 3 w) as [[arts|e] w1] eqn:Hg;
    apply getMpArticles_ticks in Hg; [|intros [= <- <-]; exact Hg].
  destruct (store_page E mpId arts w1) as [[[]|e] w2] eqn:Hs;
    apply store_page_keeps in Hs; destruct Hs as (_ & _ & _ & Hs);
    [|intros [= <- <-]; lia].
  cbv zeta.
  destruct (feed_update E mpId _ _ _) as [[[]|e] w3] eqn:Hf;
    apply feed_update_run in Hf; destruct Hf as (_ & Hf & _); simpl in Hf;
    intros [= <- <-]; lia.
Qed.

End Refresher.

(** ** Claims about the refresher *)

(** C3. [refreshMpArticlesAndUpdateFeed] never propagates an exception:
    on every store and for every behaviour of the environment it
    returns a result, and whenever the fetch, the storage of the page
    or the update of the feed row raises, the result is exactly
    [{successCount: 0, errorCount: 1, failedFeeds: [mpId],
      hasHistory: 1, articlesCount: 0}] (with the failure message). *)
Theorem refresh_never_throws statusMap defaultCount E mpId page_ w :
  (exists r w',
     refreshMpArticlesAndUpdateFeed statusMap defaultCount E mpId page_ w
     = (Return r, w'))
  /\ (forall w',
        refresh_raises statusMap defaultCount E mpId page_ w w' ->
        refreshMpArticlesAndUpdateFeed statusMap defaultCount E mpId page_ w
        = (Return {| message := String.append "更新订阅源 "
                                  (String.append mpId " 失败。");
                     successCount := 0;
                     errorCount := 1;
                     failedFeeds := [mpId];
                     hasHistory := Some 1;
                     articlesCount := 0 |}, w')).
Proof.
  split; [apply refresh_returns|].
  intros w' H. rewrite refresh_run, refresh_try_unfold.
  destruct H as [e w1 Hg | arts w1 e w2 Hg Hs | arts w1 w2 e w3 Hg Hs Hu].
  - rewrite Hg. reflexivity.
  - rewrite Hg, Hs. reflexivity.
  - rewrite Hg, Hs. cbv zeta. rewrite Hu. reflexivity.
Qed.

(** An upstream that answers every request with the 401 marker: the
    fetch raises and the result is the failure record. *)
Lemma refresh_never_throws_witness :
  refreshMpArticlesAndUpdateFeed statusMap0 15
    (env_const (HttpFail "WeReadError401")) "MP_A" 1 world0
  = (Return (refresh_failed "MP_A"),
     (getMpArticles statusMap0 (env_const (HttpFail "WeReadError401"))
        "MP_A" 1 3 world0).2).
Proof.
  apply (proj2 (refresh_never_throws statusMap0 15
                  (env_const (HttpFail "WeReadError401")) "MP_A" 1 world0)).
  eapply fetch_raises. vm_compute. reflexivity.
Defined.

(** C2, as the code has it.  When the refresh succeeds, the feed row of
    [mpId] carries [Math.floor(Date.now() / 1e3)] for the clock read
    during the call, just before the update; on the failure outcome the
    feed table is left as it was, [syncTime] included. *)
Theorem syncTime_set_on_success statusMap defaultCount E mpId page_ w r w' :
  refreshMpArticlesAndUpdateFeed statusMap defaultCount E mpId page_ w
  = (Return r, w') ->
  (successCount r = 1 ->
   exists f, find_feed mpId (feeds w') = Some f
             /\ feed_syncTime f = Date_now E (tick w' - 2) / 1000
             /\ (tick w + 2 <= tick w')%nat)
  /\ (successCount r <> 1 ->
      r = refresh_failed mpId /\ feeds w' = feeds w).
Proof.
  rewrite refresh_run, refresh_try_unfold.
  destruct (getMpArticles statusMap E mpId page_ 3 w) as [[arts|e] w1] eqn:Hg;
    apply getMpArticles_keeps in Hg; destruct Hg as (Hf1 & _ & _ & _ & Ht1).
  2:{ intros [= <- <-]. split; [discriminate|]. intros _. split; congruence. }
  destruct (store_page E mpId arts w1) as [[[]|e] w2] eqn:Hs;
    apply store_page_keeps in Hs; destruct Hs as (Hf2 & _ & _ & Ht2).
  2:{ intros [= <- <-]. split; [discriminate|]. intros _. split; congruence. }
  cbv zeta.
  destruct (feed_update E mpId _ _ _) as [[[]|e] w3] eqn:Hu;
    apply feed_update_run in Hu; destruct Hu as (_ & Ht3 & Hu); simpl in Ht3.
  - intros [= <- <-]. split; [|simpl; congruence]. intros _.
    destruct Hu as [(_ & f & Hf & Hs' & _) | ((e & He) & _)]; [|discriminate].
    exists f. split; [exact Hf|]. rewrite Hs', Ht3.
    replace (S (S (tick w2)) - 2)%nat with (tick w2) by lia.
    split; [reflexivity | lia].
  - intros [= <- <-]. split; [discriminate|]. intros _.
    split; [reflexivity|].
    destruct Hu as [(He & _) | (_ & Hf)]; [discriminate|].
    simpl in Hf. congruence.
Qed.

(** A page of two articles for [MP_A]: the row gets the clock's second. *)
Lemma syncTime_set_on_success_witness :
  exists f,
    find_feed "MP_A"
      (feeds (refreshMpArticlesAndUpdateFeed statusMap0 15
                (env_const (HttpOk [item1; item2])) "MP_A" 1 world0).2)
    = Some f
    /\ feed_syncTime f = 1700000000.
Proof.
  destruct (refreshMpArticlesAndUpdateFeed statusMap0 15
              (env_const (HttpOk [item1; item2])) "MP_A" 1 world0)
    as [[r|e] w'] eqn:Hrun.
  - destruct (syncTime_set_on_success statusMap0 15
                (env_const (HttpOk [item1; item2])) "MP_A" 1 world0 r w' Hrun)
      as [Hok _].
    assert (Hr : successCount r = 1).
    { vm_compute in Hrun. injection Hrun as <- _. reflexivity. }
    destruct (Hok Hr) as (f & Hf & Hs & _).
    exists f. split; [exact Hf|]. rewrite Hs. reflexivity.
  - vm_compute in Hrun. discriminate Hrun.
Defined.

(** C2 fails as stated: with an upstream that rejects every request the
    refresh reports the failure and the feed row keeps its old
    [syncTime], 0, while the clock reads 1700000000 seconds. *)
Lemma syncTime_kept_when_fetch_fails :
  let E := env_const (HttpFail "WeReadError400") in
  let run := refreshMpArticlesAndUpdateFeed statusMap0 15 E "MP_A" 1 world0 in
  run.1 = Return (refresh_failed "MP_A")
  /\ find_feed "MP_A" (feeds run.2) = Some feedA
  /\ feed_syncTime feedA = 0
  /\ forall t, Date_now E t / 1000 = 1700000000.
Proof. vm_compute. repeat split. Qed.

(** C4. On a successful refresh of a page of [n] articles the feed row
    of [mpId] gets [hasHistory = 0] if [n < defaultCount] and [1]
    otherwise, so it is 0 exactly when the page is short; the result
    reports the same value and the page's article count. *)
Theorem hasHistory_recomputed statusMap defaultCount E mpId page_ w arts w1 r w' :
  getMpArticles statusMap E mpId page_ 3 w = (Return arts, w1) ->
  refreshMpArticlesAndUpdateFeed statusMap defaultCount E mpId page_ w
  = (Return r, w') ->
  successCount r = 1 ->
  exists f,
    find_feed mpId (feeds w') = Some f
    /\ feed_hasHistory f
       = (if Z.of_nat (length arts) <? defaultCount then 0 else 1)
    /\ (feed_hasHistory f = 0 <-> Z.of_nat (length arts) < defaultCount)
    /\ (feed_hasHistory f = 1 <-> ~ Z.of_nat (length arts) < defaultCount)
    /\ hasHistory r = Some (feed_hasHistory f)
    /\ articlesCount r = Z.of_nat (length arts).
Proof.
  intros Hg. rewrite refresh_run, refresh_try_unfold, Hg.
  destruct (store_page E mpId arts w1) as [[[]|e] w2] eqn:Hs.
  2:{ intros [= <- <-]. discriminate. }
  cbv zeta.
  destruct (feed_update E mpId _ _ _) as [[[]|e] w3] eqn:Hu;
    apply feed_update_run in Hu; destruct Hu as (_ & _ & Hu).
  2:{ intros [= <- <-]. discriminate. }
  intros [= <- <-] _.
  destruct Hu as [(_ & f & Hf & _ & Hh) | ((e & He) & _)]; [|discriminate].
  exists f. split; [exact Hf|]. rewrite Hh. simpl.
  destruct (Z.ltb_spec (Z.of_nat (length arts)) defaultCount);
    repeat split; intros; try reflexivity; try lia; try discriminate.
Qed.

(** Two articles with a page size of 2: the page is full, [hasHistory]
    stays 1. *)
Lemma hasHistory_recomputed_witness :
  exists f,
    find_feed "MP_A"
      (feeds (refreshMpArticlesAndUpdateFeed statusMap0 2
                (env_const (HttpOk [item1; item2])) "MP_A" 1 world0).2)
    = Some f
    /\ feed_hasHistory f = 1.
Proof.
  set (E := env_const (HttpOk [item1; item2])).
  destruct (getMpArticles statusMap0 E "MP_A" 1 3 world0)
    as [[arts|e] w1] eqn:Hg; [|vm_compute in Hg; discriminate Hg].
  destruct (refreshMpArticlesAndUpdateFeed statusMap0 2 E "MP_A" 1 world0)
    as [[r|e] w'] eqn:Hrun; [|vm_compute in Hrun; discriminate Hrun].
  assert (Hr : successCount r = 1).
  { vm_compute in Hrun. injection Hrun as <- _. reflexivity. }
  destruct (hasHistory_recomputed statusMap0 2 E "MP_A" 1 world0
              arts w1 r w' Hg Hrun Hr) as (f & Hf & Hh & _).
  exists f. split; [exact Hf|]. rewrite Hh.
  vm_compute in Hg. injection Hg as <- _. reflexivity.
Defined.

(** ** Claims about the quarantine ledger and the credential pool *)

(** C9. When the rejection handler reaches its quarantine step for a
    request that carried a credential [xid], the ledger afterwards is
    the ledger before with [xid] appended to today's list if that list
    existed, and is the ledger before, with still no list for today, if
    it did not. *)
Theorem quarantine_needs_todays_list statusMap E (errMsg xid : string) (w w1 : World) :
  xid <> "" ->
  disable_or_log statusMap E errMsg xid w = (Return tt, w1) ->
  let today := today_date E (tick w1) in
  let ledger' :=
    blockedAccountsMap (onRejected (A := unit) statusMap E errMsg xid w).2 in
  match blockedAccountsMap w !! today with
  | Some l => ledger' = <[today := (l ++ [xid])%list]> (blockedAccountsMap w)
  | None => ledger' = blockedAccountsMap w /\ ledger' !! today = None
  end.
Proof.
  intros Hx Hd today ledger'.
  destruct (quarantine_run E errMsg xid w1) as (w2 & Hq & _ & Hl2).
  assert (Hrun : onRejected (A := unit) statusMap E errMsg xid w
                 = (Throw (RequestRejected errMsg), w2)).
  { unfold onRejected. unfold bind at 1. rewrite Hd.
    unfold bind at 1. rewrite Hq. reflexivity. }
  apply disable_or_log_keeps in Hd. destruct Hd as [_ Hl].
  subst ledger'. rewrite Hrun. simpl. rewrite Hl2, Hl. fold today.
  destruct (blockedAccountsMap w !! today) eqn:Ht.
  - destruct (String.eqb_spec xid ""); [contradiction | reflexivity].
  - split; [reflexivity | exact Ht].
Qed.

(** Both branches: with today's list present, 101 joins 102 on it; from
    the empty ledger nothing is recorded. *)
Lemma quarantine_needs_todays_list_witness :
  blockedAccountsMap
    (onRejected (A := unit) statusMap0 (env_const (HttpFail "WeReadError429"))
       "WeReadError429" "101" world_listed).2
  = <["2024-01-01" := ["102"; "101"]]> (blockedAccountsMap world_listed)
  /\ blockedAccountsMap
       (onRejected (A := unit) statusMap0 (env_const (HttpFail "WeReadError429"))
          "WeReadError429" "101" world0).2
     = blockedAccountsMap world0.
Proof.
  split.
  - assert (Hx : "101" <> "") by discriminate.
    pose proof (quarantine_needs_todays_list statusMap0
                  (env_const (HttpFail "WeReadError429"))
                  "WeReadError429" "101" world_listed world_listed
                  Hx eq_refl) as H.
    exact H.
  - assert (Hx : "101" <> "") by discriminate.
    pose proof (quarantine_needs_todays_list statusMap0
                  (env_const (HttpFail "WeReadError429"))
                  "WeReadError429" "101" world0 world0
                  Hx eq_refl) as H.
    exact (proj1 H).
Defined.

(** [getAvailableAccount] when the database answers its query. *)
Lemma getAvailableAccount_run statusMap E w :
  db_fault E (S (tick w)) = false ->
  getAvailableAccount statusMap E w =
  match take 10 (List.filter (available statusMap (quarantined_today E w))
                   (accounts w)) with
  | [] => (Throw NoAvailableAccount, set_tick (S (S (tick w))) w)
  | a0 :: rest =>
      (Return (nth (Math_random E (S (S (tick w))) mod length (a0 :: rest))%nat
                 (a0 :: rest) a0),
       set_tick (S (S (S (tick w)))) w)
  end.
Proof.
  intros Hdb.
  unfold getAvailableAccount. unfold bind at 1.
  rewrite getBlockedAccountIds_run. fold (quarantined_today E w).
  unfold account_findMany, prisma. unfold bind at 1. unfold bind at 1.
  unfold consult at 1. cbn [tick set_tick]. rewrite Hdb.
  unfold bind, gets, ret, throw, consult. cbn [tick set_tick accounts].
  destruct (take 10 _); reflexivity.
Qed.

(** C8. With a database that answers the query: if the store holds an
    enabled credential not quarantined today, [getAvailableAccount]
    returns a credential of the store that is enabled and not
    quarantined today, one of the first ten such rows; if it holds
    none, it throws the no-available-account error. *)
Theorem getAvailableAccount_spec statusMap E w :
  db_fault E (S (tick w)) = false ->
  ((exists a, a ∈ accounts w /\ eligible statusMap E w a) ->
   exists a w',
     getAvailableAccount statusMap E w = (Return a, w')
     /\ a ∈ accounts w /\ eligible statusMap E w a
     /\ a ∈ take 10 (List.filter
                       (available statusMap (quarantined_today E w))
                       (accounts w)))
  /\ (~ (exists a, a ∈ accounts w /\ eligible statusMap E w a) ->
      exists w',
        getAvailableAccount statusMap E w = (Throw NoAvailableAccount, w')).
Proof.
  intros Hdb. rewrite (getAvailableAccount_run statusMap E w Hdb).
  assert (Hav : forall a, available statusMap (quarantined_today E w) a = true
                          <-> eligible statusMap E w a).
  { intros a. unfold available, eligible. apply bool_decide_eq_true. }
  set (rows := List.filter (available statusMap (quarantined_today E w))
                 (accounts w)).
  assert (Hrows : forall a, a ∈ rows <-> a ∈ accounts w /\ eligible statusMap E w a).
  { intros a. subst rows. rewrite !list_elem_of_In, filter_In, Hav.
    reflexivity. }
  destruct (take 10 rows) as [|a0 rest] eqn:Hc.
  - split.
    + intros (a & Ha). apply Hrows in Ha.
      destruct rows; [inversion Ha | discriminate Hc].
    + intros _. eexists. reflexivity.
  - set (pick := nth (Math_random E (S (S (tick w))) mod length (a0 :: rest))%nat
                   (a0 :: rest) a0).
    assert (Hpick : pick ∈ a0 :: rest).
    { apply list_elem_of_In, nth_In. apply Nat.mod_upper_bound.
      simpl. lia. }
    assert (Hsub : pick ∈ rows).
    { eapply subseteq_take. rewrite Hc. exact Hpick. }
    split.
    + intros _. exists pick. eexists. split; [reflexivity|].
      apply Hrows in Hsub. destruct Hsub as [Hin Hel].
      repeat split; try assumption; apply Hel.
    + intros Hno. exfalso. apply Hno. exists pick. apply Hrows, Hsub.
Qed.

(** Both branches: two eligible credentials out of three; and a store
    with the invalid credential alone. *)
Lemma getAvailableAccount_spec_witness :
  (exists a w',
     getAvailableAccount statusMap0 (env_const (HttpOk [])) world0
     = (Return a, w')
     /\ a ∈ accounts world0
     /\ eligible statusMap0 (env_const (HttpOk [])) world0 a
     /\ a ∈ take 10 (List.filter
                       (available statusMap0
                          (quarantined_today (env_const (HttpOk [])) world0))
                       (accounts world0)))
  /\ (exists w',
        getAvailableAccount statusMap0 (env_const (HttpOk []))
          (set_accounts [account3] world0)
        = (Throw NoAvailableAccount, w')).
Proof.
  split.
  - apply (proj1 (getAvailableAccount_spec statusMap0 (env_const (HttpOk []))
                    world0 eq_refl)).
    exists account2. split; [right; left|].
    split; [reflexivity|]. apply not_elem_of_nil.
  - apply (proj2 (getAvailableAccount_spec statusMap0 (env_const (HttpOk []))
                    (set_accounts [account3] world0) eq_refl)).
    intros (a & Ha & Hs & _).
    apply list_elem_of_singleton in Ha. subst a. discriminate Hs.
Defined.

(** ** Claims about the bulk refresh flag *)

(** C5. When [isRefreshAllMpArticlesRunning] is already set,
    [refreshAllMpArticlesAndUpdateFeed] returns
    [{successCount: -1, errorCount: -1, failedFeeds: []}] at once and
    leaves the whole store as it was: no table and no flag is written
    and the oracle's counter has not moved, while any call of the
    refresher moves it, so the refresher was called on no feed. *)
Theorem refreshAll_when_running statusMap defaultCount E w :
  isRefreshAllMpArticlesRunning w = true ->
  refreshAllMpArticlesAndUpdateFeed statusMap defaultCount E w
  = (Return {| all_message := "任务已在运行中";
               all_successCount := -1;
               all_errorCount := -1;
               all_failedFeeds := [] |}, w)
  /\ (forall mpId page_ w0 o w1,
        refreshMpArticlesAndUpdateFeed statusMap defaultCount E mpId page_ w0
        = (o, w1) ->
        (tick w0 < tick w1)%nat).
Proof.
  intros H. split.
  - unfold refreshAllMpArticlesAndUpdateFeed, bind, gets.
    rewrite H. reflexivity.
  - intros mpId page_ w0 o w1. apply refresh_ticks.
Qed.

(** The sentinel, from a store whose flag is set. *)
Lemma refreshAll_when_running_witness :
  refreshAllMpArticlesAndUpdateFeed statusMap0 15 env_A_only
    (set_isRefreshAllMpArticlesRunning true world0)
  = (Return already_running, set_isRefreshAllMpArticlesRunning true world0).
Proof.
  apply (proj1 (refreshAll_when_running statusMap0 15 env_A_only
                  (set_isRefreshAllMpArticlesRunning true world0) eq_refl)).
Defined.

(** ** Claims about the history crawler *)

Lemma feed_findFirstOrThrow_keeps E k w o w' :
  feed_findFirstOrThrow E k w = (o, w') -> keeps_service_state w w'.
Proof.
  unfold feed_findFirstOrThrow. unfold_monad. simpl.
  destruct (db_fault E (tick w)); simpl.
  - intros [= <- <-]. repeat split; simpl; lia.
  - destruct (find_feed k (feeds w)); intros [= <- <-];
      repeat split; simpl; lia.
Qed.

Lemma article_count_keeps E k w o w' :
  article_count E k w = (o, w') -> keeps_service_state w w'.
Proof.
  unfold article_count. unfold_monad. simpl.
  destruct (db_fault E (tick w)); simpl; intros [= <- <-];
    repeat split; simpl; lia.
Qed.

(** The check at the head of an iteration: once the record names
    another id, the loop leaves through [finally] and starts no call. *)
Lemma loop_head_mismatch mpId i w :
  id (inProgressHistoryMp w) <> mpId ->
  loop_head mpId i w = crawl_exit (Return tt) w.
Proof.
  intros H. destruct i as [|i]; [reflexivity|]. simpl.
  destruct (String.eqb_spec (id (inProgressHistoryMp w)) mpId);
    [contradiction | reflexivity].
Qed.

Lemma resume_n_finished statusMap defaultCount E n mpId o w :
  resume_n statusMap defaultCount E n mpId (Finished o) w = (Finished o, w).
Proof. induction n as [|n IH]; simpl; [reflexivity | exact IH]. Qed.

Lemma crawl_exit_record o w :
  inProgressHistoryMp (crawl_exit o w).2 = {| id := ""; page := 1 |}
  /\ (crawl_exit o w).1 = Finished o.
Proof. split; reflexivity. Qed.

Section Crawler.

Variable statusMap : StatusMap.
Variable defaultCount : Z.
Variable E : Env.

(** One resumption of the crawl of [mpId] while the record names another
    id: the call ends through [finally], or it moves to an [await] that
    is not a call of the refresher and the record keeps its id. *)
Lemma resume_mismatch_step mpId pc w :
  id (inProgressHistoryMp w) <> mpId ->
  is_finished pc = false ->
  let r := resume statusMap defaultCount E mpId pc w in
  (exists o, r.1 = Finished o
             /\ inProgressHistoryMp r.2 = {| id := ""; page := 1 |})
  \/ ((r.1 = AwaitCount \/ exists i, r.1 = AwaitDelay i)
      /\ id (inProgressHistoryMp r.2) = id (inProgressHistoryMp w)).
Proof.
  intros Hne Hpc.
  destruct pc as [| |i p|i|o]; try discriminate Hpc; cbv zeta; unfold resume.
  - destruct (feed_findFirstOrThrow E mpId w) as [[f|e] w'] eqn:Hf;
      apply feed_findFirstOrThrow_keeps in Hf; destruct Hf as (Hr & _).
    + destruct (feed_hasHistory f =? 0); simpl.
      * left. eauto.
      * right. split; [left; reflexivity | congruence].
    + left. simpl. eauto.
  - destruct (article_count E mpId w) as [[n|e] w'] eqn:Hc;
      apply article_count_keeps in Hc; destruct Hc as (Hr & _).
    + rewrite loop_head_mismatch by (simpl; congruence).
      left. simpl. eauto.
    + left. simpl. eauto.
  - destruct (refreshMpArticlesAndUpdateFeed statusMap defaultCount E mpId p w)
      as [[r|e] w'] eqn:Hrun;
      apply refresh_keeps in Hrun; destruct Hrun as (Hr & _).
    + destruct (default 1 (hasHistory r) <? 1); simpl.
      * left. eauto.
      * right. split; [right; eauto | congruence].
    + left. simpl. eauto.
  - rewrite loop_head_mismatch by assumption. left. simpl. eauto.
Qed.

(** From [AwaitCount] or [AwaitDelay] the next stop is the check. *)
Lemma resume_mismatch_last mpId pc w :
  id (inProgressHistoryMp w) <> mpId ->
  (pc = AwaitCount \/ exists i, pc = AwaitDelay i) ->
  exists o,
    (resume statusMap defaultCount E mpId pc w).1 = Finished o
    /\ inProgressHistoryMp (resume statusMap defaultCount E mpId pc w).2
       = {| id := ""; page := 1 |}.
Proof.
  intros Hne [-> | [i ->]]; unfold resume.
  - destruct (article_count E mpId w) as [[n|e] w'] eqn:Hc;
      apply article_count_keeps in Hc; destruct Hc as (Hr & _).
    + rewrite loop_head_mismatch by (simpl; congruence). simpl. eauto.
    + simpl. eauto.
  - rewrite loop_head_mismatch by assumption. simpl. eauto.
Qed.

(** Two resumptions end a crawl whose record names another id, and none
    of them starts a call of the refresher. *)
Lemma resume_mismatch_ends mpId pc w :
  id (inProgressHistoryMp w) <> mpId ->
  is_finished pc = false ->
  (forall k, (1 <= k)%nat -> forall i p,
     (resume_n statusMap defaultCount E k mpId pc w).1 <> AwaitRefresh i p)
  /\ is_finished (resume_n statusMap defaultCount E 2 mpId pc w).1 = true
  /\ inProgressHistoryMp (resume_n statusMap defaultCount E 2 mpId pc w).2
     = {| id := ""; page := 1 |}.
Proof.
  intros Hne Hpc.
  pose proof (resume_mismatch_step mpId pc w Hne Hpc) as Hstep.
  cbv zeta in Hstep.
  destruct (resume statusMap defaultCount E mpId pc w) as [pc1 w1] eqn:H1.
  simpl in Hstep.
  destruct Hstep as [(o & -> & Hrec) | (Hpc1 & Hid)].
  - split; [|split].
    + intros k Hk i p. destruct k as [|k]; [lia|]. simpl. rewrite H1.
      rewrite resume_n_finished. simpl. discriminate.
    + simpl. rewrite H1. reflexivity.
    + simpl. rewrite H1. exact Hrec.
  - assert (Hne1 : id (inProgressHistoryMp w1) <> mpId) by congruence.
    destruct (resume_mismatch_last mpId pc1 w1 Hne1 Hpc1) as (o & Hfin & Hrec).
    destruct (resume statusMap defaultCount E mpId pc1 w1) as [pc2 w2] eqn:H2.
    simpl in Hfin, Hrec. subst pc2.
    split; [|split].
    + intros k Hk i p. destruct k as [|[|k]]; [lia| |].
      * simpl. rewrite H1. simpl.
        destruct Hpc1 as [-> | [j ->]]; discriminate.
      * simpl. rewrite H1, H2. rewrite resume_n_finished. simpl. discriminate.
    + simpl. rewrite H1, H2. reflexivity.
    + simpl. rewrite H1, H2. exact Hrec.
Qed.

End Crawler.

(** ** The refresher does not depend on the crawl record *)

Lemma ignores_ret {A} (a : A) : ignores_record (ret a).
Proof. intros rec w. reflexivity. Qed.

Lemma ignores_throw {A} (e : Error) : ignores_record (throw (A := A) e).
Proof. intros rec w. reflexivity. Qed.

Lemma ignores_bind {A B} (m : M A) (f : A -> M B) :
  ignores_record m -> (forall a, ignores_record (f a)) ->
  ignores_record (bind m f).
Proof.
  intros Hm Hf rec w. unfold bind. rewrite Hm.
  destruct (m w) as [[a|e] w1]; simpl; [apply Hf | reflexivity].
Qed.

Lemma ignores_try_catch {A} (m : M A) (h : Error -> M A) :
  ignores_record m -> (forall e, ignores_record (h e)) ->
  ignores_record (try_catch m h).
Proof.
  intros Hm Hh rec w. unfold try_catch. rewrite Hm.
  destruct (m w) as [[a|e] w1]; simpl; [reflexivity | apply Hh].
Qed.

Lemma ignores_consult {A} (f : nat -> A) : ignores_record (consult f).
Proof. intros rec w. reflexivity. Qed.

Lemma ignores_sleep ms : ignores_record (sleep ms).
Proof. intros rec w. reflexivity. Qed.

Lemma ignores_gets {A} (f : World -> A) :
  (forall rec w, f (set_inProgressHistoryMp rec w) = f w) ->
  ignores_record (gets f).
Proof. intros Hf rec w. unfold gets. rewrite Hf. reflexivity. Qed.

Lemma ignores_modify (g : World -> World) :
  (forall rec w,
     g (set_inProgressHistoryMp rec w) = set_inProgressHistoryMp rec (g w)) ->
  ignores_record (modify g).
Proof. intros Hg rec w. unfold modify. rewrite Hg. reflexivity. Qed.

Lemma ignores_prisma {A} E (op : M A) :
  ignores_record op -> ignores_record (prisma E op).
Proof.
  intros Hop. unfold prisma. apply ignores_bind; [apply ignores_consult|].
  intros []; [apply ignores_throw | exact Hop].
Qed.

Ltac ignores_step :=
  first
    [ apply ignores_ret | apply ignores_throw | apply ignores_consult
    | apply ignores_sleep
    | apply ignores_prisma
    | apply ignores_gets; intros; reflexivity
    | apply ignores_modify; intros; reflexivity
    | apply ignores_bind; [|intros ?]
    | apply ignores_try_catch; [|intros ?]
    | match goal with
      | |- ignores_record (match ?x with _ => _ end) => destruct x
      | |- ignores_record (if ?c then _ else _) => destruct c
      end ].

Section RecordFrame.

Variable statusMap : StatusMap.
Variable defaultCount : Z.
Variable E : Env.

Lemma ignores_onRejected {A} errMsg xid :
  ignores_record (onRejected (A := A) statusMap E errMsg xid).
Proof.
  unfold onRejected, disable_or_log, quarantine, account_update, getTodayDate.
  repeat ignores_step.
Qed.

Lemma ignores_getAvailableAccount :
  ignores_record (getAvailableAccount statusMap E).
Proof.
  unfold getAvailableAccount, getBlockedAccountIds, account_findMany,
    getTodayDate.
  repeat ignores_step.
Qed.

Lemma ignores_request_get mpId page_ account :
  ignores_record (request_get statusMap E mpId page_ account).
Proof.
  unfold request_get. apply ignores_bind; [apply ignores_consult|].
  intros [data|errMsg]; [apply ignores_ret | apply ignores_onRejected].
Qed.

Lemma ignores_getMpArticles mpId page_ retryCount :
  ignores_record (getMpArticles statusMap E mpId page_ retryCount).
Proof.
  induction retryCount as [|n IH]; simpl;
    (apply ignores_bind; [apply ignores_getAvailableAccount|]); intros a;
    (apply ignores_try_catch; [apply ignores_request_get|]); intros e.
  - apply ignores_throw.
  - exact IH.
Qed.

Lemma ignores_refresh mpId page_ :
  ignores_record
    (refreshMpArticlesAndUpdateFeed statusMap defaultCount E mpId page_).
Proof.
  unfold refreshMpArticlesAndUpdateFeed, refresh_try.
  apply ignores_try_catch; [|intros e; apply ignores_ret].
  apply ignores_bind; [apply ignores_getMpArticles|]. intros arts.
  unfold store_page, article_upsert_transaction, article_createMany,
    feed_update.
  repeat ignores_step.
Qed.

End RecordFrame.

(** ** The check at the head of an iteration *)

(** The check leaves the loop exactly when the record names another id;
    otherwise the next page is asked for. *)
Lemma loop_head_check mpId i w :
  loop_head mpId (S i) w =
  if String.eqb (id (inProgressHistoryMp w)) mpId
  then (AwaitRefresh i (page (inProgressHistoryMp w)), w)
  else (Finished (Return tt),
        set_inProgressHistoryMp {| id := ""; page := 1 |} w).
Proof.
  unfold loop_head. destruct (String.eqb (id (inProgressHistoryMp w)) mpId);
    reflexivity.
Qed.

(** A resumption either ends the call, through [finally], or leaves the
    id of the record as it found it. *)
Lemma resume_record statusMap defaultCount E mpId pc w :
  is_finished pc = false ->
  let r := resume statusMap defaultCount E mpId pc w in
  (is_finished r.1 = true ->
   inProgressHistoryMp r.2 = {| id := ""; page := 1 |})
  /\ (is_finished r.1 = false ->
      id (inProgressHistoryMp r.2) = id (inProgressHistoryMp w)).
Proof.
  intros Hpc.
  assert (Hloop : forall i w0,
            let r := loop_head mpId i w0 in
            (is_finished r.1 = true ->
             inProgressHistoryMp r.2 = {| id := ""; page := 1 |})
            /\ (is_finished r.1 = false -> r.2 = w0)).
  { intros i w0. destruct i as [|i]; simpl.
    - split; [reflexivity | discriminate].
    - destruct (negb _); simpl; split; try reflexivity; discriminate. }
  destruct pc as [| |i p|i|o]; try discriminate Hpc; cbv zeta; unfold resume.
  - destruct (feed_findFirstOrThrow E mpId w) as [[f|e] w'] eqn:Hf;
      apply feed_findFirstOrThrow_keeps in Hf; destruct Hf as (Hr & _).
    + destruct (feed_hasHistory f =? 0); simpl; split;
        try reflexivity; try discriminate. intros _. congruence.
    + simpl. split; [reflexivity | discriminate].
  - destruct (article_count E mpId w) as [[n|e] w'] eqn:Hc;
      apply article_count_keeps in Hc; destruct Hc as (Hr & _).
    + destruct (Hloop 1000%nat
                  (set_inProgressHistoryMp
                     {| id := id (inProgressHistoryMp w');
                        page := Math_ceil_div n defaultCount |} w'))
        as [H1 H2].
      split; [exact H1|]. intros Hnf. rewrite (H2 Hnf). simpl. congruence.
    + simpl. split; [reflexivity | discriminate].
  - destruct (refreshMpArticlesAndUpdateFeed statusMap defaultCount E mpId p w)
      as [[r|e] w'] eqn:Hrun;
      apply refresh_keeps in Hrun; destruct Hrun as (Hr & _).
    + destruct (default 1 (hasHistory r) <? 1); simpl; split;
        try reflexivity; try discriminate. intros _. congruence.
    + simpl. split; [reflexivity | discriminate].
  - destruct (Hloop i w) as [H1 H2]. split; [exact H1|].
    intros Hnf. rewrite (H2 Hnf). reflexivity.
Qed.

(** An iteration that nothing disturbs, when the page in flight is
    full: the next page is asked for. *)
Lemma resume_goes_on statusMap defaultCount E mpId i p w r w1 :
  refreshMpArticlesAndUpdateFeed statusMap defaultCount E mpId p w
  = (Return r, w1) ->
  hasHistory r = Some 1 ->
  id (inProgressHistoryMp w) = mpId ->
  resume_n statusMap defaultCount E 2 mpId (AwaitRefresh (S i) p) w
  = (AwaitRefresh i (page (inProgressHistoryMp w) + 1),
     set_inProgressHistoryMp
       {| id := mpId; page := page (inProgressHistoryMp w) + 1 |} w1).
Proof.
  intros Hrun Hh Hid.
  pose proof (refresh_keeps _ _ _ _ _ _ _ _ Hrun) as (Hrec & _).
  assert (H1 : resume statusMap defaultCount E mpId (AwaitRefresh (S i) p) w
               = (AwaitDelay (S i),
                  set_inProgressHistoryMp
                    {| id := mpId; page := page (inProgressHistoryMp w) + 1 |}
                    w1)).
  { unfold resume. rewrite Hrun, Hh, Hrec, Hid. reflexivity. }
  cbn [resume_n]. rewrite H1. unfold resume. rewrite loop_head_check.
  cbn [set_inProgressHistoryMp inProgressHistoryMp id page].
  rewrite String.eqb_refl. reflexivity.
Qed.

(** C6. While a crawl of a non-empty [A] is active, the call with the
    empty id writes [{id: '', page: 1}] into the record and returns
    without entering the crawl loop.  The check at the head of an
    iteration of [A]'s loop leaves the loop, through [finally], exactly
    when the record's id is not [A].  So [A]'s call, resumed after the
    stop from whichever [await] it was suspended at, and whatever other
    calls did to the store meanwhile short of claiming the record for
    [A] again, starts no further call of the refresher and has ended
    at its second resumption at the latest, with the record at
    [{id: '', page: 1}].  Where the call would have gone on without
    the stop, it ends with it: from the delay between two pages it
    ends at once instead of asking for the next page; with a full page
    in flight, that page is still stored, [page++] lands on the new
    record, and the check that would have asked for the next page
    ends the call, [finally] putting the record back at
    [{id: '', page: 1}]. *)
Theorem stop_request_ends_crawl statusMap defaultCount E (A : string) pc w :
  A <> "" ->
  id (inProgressHistoryMp w) = A ->
  is_finished pc = false ->
  let reset := {| id := ""; page := 1 |} in
  let stop := getHistoryMpArticles "" w in
  stop = (Finished (Return tt), set_inProgressHistoryMp reset w)
  /\ (forall i w1,
        loop_head A (S i) w1 =
        if String.eqb (id (inProgressHistoryMp w1)) A
        then (AwaitRefresh i (page (inProgressHistoryMp w1)), w1)
        else (Finished (Return tt), set_inProgressHistoryMp reset w1))
  /\ (forall w1,
        id (inProgressHistoryMp w1) <> A ->
        let r1 := resume statusMap defaultCount E A pc w1 in
        (forall i p, r1.1 <> AwaitRefresh i p)
        /\ id (inProgressHistoryMp r1.2) <> A
        /\ (is_finished r1.1 = true -> inProgressHistoryMp r1.2 = reset)
        /\ forall w2,
             id (inProgressHistoryMp w2) <> A ->
             is_finished r1.1 = false ->
             let r2 := resume statusMap defaultCount E A r1.1 w2 in
             is_finished r2.1 = true /\ inProgressHistoryMp r2.2 = reset)
  /\ (is_finished (resume_n statusMap defaultCount E 2 A pc stop.2).1 = true
      /\ inProgressHistoryMp (resume_n statusMap defaultCount E 2 A pc stop.2).2
         = reset)
  /\ (forall i,
        pc = AwaitDelay (S i) ->
        resume statusMap defaultCount E A pc w
        = (AwaitRefresh i (page (inProgressHistoryMp w)), w)
        /\ resume statusMap defaultCount E A pc stop.2
           = (Finished (Return tt), set_inProgressHistoryMp reset w))
  /\ (forall i p r w1,
        pc = AwaitRefresh (S i) p ->
        refreshMpArticlesAndUpdateFeed statusMap defaultCount E A p w
        = (Return r, w1) ->
        hasHistory r = Some 1 ->
        resume_n statusMap defaultCount E 2 A pc w
        = (AwaitRefresh i (page (inProgressHistoryMp w) + 1),
           set_inProgressHistoryMp
             {| id := A; page := page (inProgressHistoryMp w) + 1 |} w1)
        /\ resume statusMap defaultCount E A pc stop.2
           = (AwaitDelay (S i),
              set_inProgressHistoryMp {| id := ""; page := 2 |} w1)
        /\ resume_n statusMap defaultCount E 2 A pc stop.2
           = (Finished (Return tt), set_inProgressHistoryMp reset w1)).
Proof.
  intros HA Hid Hpc reset stop.
  assert (Hstop : stop = (Finished (Return tt),
                          set_inProgressHistoryMp reset w)).
  { subst stop. unfold getHistoryMpArticles. rewrite Hid.
    destruct (String.eqb_spec A ""); [contradiction | reflexivity]. }
  assert (Hne : id (inProgressHistoryMp (set_inProgressHistoryMp reset w)) <> A).
  { simpl. congruence. }
  rewrite Hstop. cbn [fst snd].
  split; [reflexivity|].
  split; [intros i w1; apply loop_head_check|].
  split; [|split; [|split]].
  - intros w1 Hw1.
    pose proof (resume_mismatch_step statusMap defaultCount E A pc w1 Hw1 Hpc)
      as Hstep. cbv zeta in Hstep.
    set (r1 := resume statusMap defaultCount E A pc w1) in *.
    destruct Hstep as [(o & Hfin & Hrec) | (Hpc1 & Hsame)].
    + rewrite Hfin. split; [discriminate|].
      split; [rewrite Hrec; simpl; congruence|].
      split; [intros _; exact Hrec | discriminate].
    + split; [intros i p; destruct Hpc1 as [-> | [j ->]]; discriminate|].
      split; [congruence|].
      split; [destruct Hpc1 as [-> | [j ->]]; discriminate|].
      intros w2 Hw2 _.
      destruct (resume_mismatch_last statusMap defaultCount E A r1.1 w2
                  Hw2 Hpc1) as (o & Hfin & Hrec).
      rewrite Hfin. split; [reflexivity | exact Hrec].
  - destruct (resume_mismatch_ends statusMap defaultCount E A pc
                (set_inProgressHistoryMp reset w) Hne Hpc) as (_ & H1 & H2).
    split; assumption.
  - intros i ->. subst reset. unfold resume. rewrite !loop_head_check.
    cbn [set_inProgressHistoryMp inProgressHistoryMp id page].
    rewrite Hid, String.eqb_refl.
    destruct (String.eqb_spec "" A); [congruence|]. split; reflexivity.
  - intros i p r w1 -> Hrun Hh. subst reset. split; [|split].
    + exact (resume_goes_on _ _ _ _ _ _ _ _ _ Hrun Hh Hid).
    + unfold resume. rewrite (ignores_refresh statusMap defaultCount E A p),
        Hrun. cbn [fst snd]. rewrite Hh. reflexivity.
    + assert (H1 : resume statusMap defaultCount E A (AwaitRefresh (S i) p)
                     (set_inProgressHistoryMp {| id := ""; page := 1 |} w)
                   = (AwaitDelay (S i),
                      set_inProgressHistoryMp {| id := ""; page := 2 |} w1)).
      { unfold resume.
        rewrite (ignores_refresh statusMap defaultCount E A p), Hrun.
        cbn [fst snd]. rewrite Hh. reflexivity. }
      cbn [resume_n]. rewrite H1.
      unfold resume. rewrite loop_head_check.
      cbn [set_inProgressHistoryMp inProgressHistoryMp id page].
      destruct (String.eqb_spec "" A); [congruence | reflexivity].
Qed.

(** The crawl of [MP_A] with a full page (page size 2) in flight:
    left alone it asks for page 4; stopped, it ends after that page. *)
Lemma stop_request_ends_crawl_witness :
  (resume_n statusMap0 2 (env_const (HttpOk [item1; item2])) 2 "MP_A"
     (AwaitRefresh 990 3) world_crawling_A).1
  = AwaitRefresh 989 4
  /\ resume_n statusMap0 2 (env_const (HttpOk [item1; item2])) 2 "MP_A"
       (AwaitRefresh 990 3) (getHistoryMpArticles "" world_crawling_A).2
     = (Finished (Return tt),
        set_inProgressHistoryMp {| id := ""; page := 1 |}
          (refreshMpArticlesAndUpdateFeed statusMap0 2
             (env_const (HttpOk [item1; item2])) "MP_A" 3
             world_crawling_A).2).
Proof.
  assert (HA : "MP_A" <> "") by discriminate.
  pose proof (stop_request_ends_crawl statusMap0 2
                (env_const (HttpOk [item1; item2])) "MP_A"
                (AwaitRefresh 990 3) world_crawling_A HA eq_refl eq_refl)
    as H.
  cbv zeta in H. destruct H as (_ & _ & _ & _ & _ & H).
  destruct (H 989%nat 3 (refresh_succeeded "MP_A" 1 2)
              (refreshMpArticlesAndUpdateFeed statusMap0 2
                 (env_const (HttpOk [item1; item2])) "MP_A" 3
                 world_crawling_A).2)
    as (H1 & _ & H3); [reflexivity | vm_compute; reflexivity | reflexivity |].
  split; [rewrite H1; reflexivity | exact H3].
Defined.

(** ** Two calls at once *)

Lemma winding_down_spec n pc :
  winding_down n pc ->
  ((1 <= n)%nat -> forall i p, pc <> AwaitRefresh i p)
  /\ ((2 <= n)%nat -> is_finished pc = true).
Proof.
  destruct n as [|[|n]]; simpl; intros H.
  - split; lia.
  - split; [|lia]. intros _ i p. destruct pc; try contradiction; discriminate.
  - split; intros _; [|exact H]. intros i p. destruct pc; discriminate.
Qed.

Lemma turns_cons t u sched :
  turns t (u :: sched) = ((if is_turn t u then 1 else 0) + turns t sched)%nat.
Proof. unfold turns. simpl. destruct (is_turn t u); reflexivity. Qed.

Section TwoCalls.

Variable statusMap : StatusMap.
Variable defaultCount : Z.
Variable E : Env.
Variables A B : string.

Lemma turn_taken s t :
  A <> "" ->
  record_taken A s ->
  record_taken A (resume_turn statusMap defaultCount E A B s t).
Proof.
  intros HA (H1 & H2 & H3). destruct s as [pa pb w].
  unfold record_taken in *. cbn [callA callB store] in *.
  assert (Hreset : id {| id := ""; page := 1 |} <> A) by (simpl; congruence).
  destruct t; unfold resume_turn; cbn [callA callB store].
  - destruct (is_finished pa) eqn:Hpa.
    + destruct pa; try discriminate Hpa.
      change (resume statusMap defaultCount E A (Finished o) w)
        with (Finished o, w).
      cbn [fst snd]. repeat split; auto.
    + destruct (resume_record statusMap defaultCount E A pa w Hpa) as [Hf Hn].
      destruct (is_finished (resume statusMap defaultCount E A pa w).1) eqn:Hr.
      * rewrite (Hf eq_refl). repeat split; auto.
      * rewrite (Hn eq_refl). repeat split; try discriminate. exact H1.
  - destruct (is_finished pb) eqn:Hpb.
    + destruct pb; try discriminate Hpb.
      change (resume statusMap defaultCount E B (Finished o) w)
        with (Finished o, w).
      cbn [fst snd]. repeat split; auto.
    + destruct (resume_record statusMap defaultCount E B pb w Hpb) as [Hf Hn].
      destruct (is_finished (resume statusMap defaultCount E B pb w).1) eqn:Hr.
      * rewrite (Hf eq_refl). repeat split; auto.
      * rewrite (Hn eq_refl). repeat split; try discriminate; auto.
Qed.

Lemma run_taken sched s :
  A <> "" ->
  record_taken A s ->
  record_taken A (run_turns statusMap defaultCount E A B sched s).
Proof.
  intros HA. revert s.
  induction sched as [|t sched IH]; intros s H; [exact H|].
  apply (IH (resume_turn statusMap defaultCount E A B s t)).
  apply turn_taken; assumption.
Qed.

(** One resumption of a call whose record names another id moves it one
    stage down. *)
Lemma resume_winds_down mpId n pc w :
  id (inProgressHistoryMp w) <> mpId ->
  winding_down n pc ->
  winding_down (S n) (resume statusMap defaultCount E mpId pc w).1.
Proof.
  intros Hne Hn. destruct (is_finished pc) eqn:Hpc.
  - destruct pc; try discriminate Hpc.
    destruct n as [|[|n]]; simpl; auto.
  - destruct n as [|[|n]].
    + pose proof (resume_mismatch_step statusMap defaultCount E mpId pc w
                    Hne Hpc) as Hstep. cbv zeta in Hstep.
      destruct Hstep as [(o & -> & _) | ([-> | [j ->]] & _)]; exact I.
    + assert (Hpc1 : pc = AwaitCount \/ exists i, pc = AwaitDelay i).
      { destruct pc; simpl in Hn; try contradiction; try discriminate Hpc;
          eauto. }
      destruct (resume_mismatch_last statusMap defaultCount E mpId pc w
                  Hne Hpc1) as (o & -> & _). reflexivity.
    + simpl in Hn. congruence.
Qed.

Lemma run_winds_down_A sched s n :
  A <> "" ->
  record_taken A s ->
  winding_down n (callA s) ->
  winding_down (n + turns ResumeA sched)
    (callA (run_turns statusMap defaultCount E A B sched s)).
Proof.
  intros HA. revert s n.
  induction sched as [|t sched IH]; intros s n Hs Hn.
  - unfold turns. simpl. rewrite Nat.add_0_r. exact Hn.
  - rewrite turns_cons.
    change (run_turns statusMap defaultCount E A B (t :: sched) s)
      with (run_turns statusMap defaultCount E A B sched
              (resume_turn statusMap defaultCount E A B s t)).
    pose proof (turn_taken s t HA Hs) as Hs'. destruct t; cbv beta iota delta [is_turn].
    + replace (n + (1 + turns ResumeA sched))%nat
        with (S n + turns ResumeA sched)%nat by lia.
      apply IH; [exact Hs'|]. unfold resume_turn. cbn [callA].
      apply resume_winds_down; [apply Hs | exact Hn].
    + replace (n + (0 + turns ResumeA sched))%nat
        with (n + turns ResumeA sched)%nat by lia.
      apply IH; [exact Hs' | exact Hn].
Qed.

Lemma run_winds_down_B sched s n :
  A <> "" -> B <> "" ->
  record_taken A s ->
  is_finished (callA s) = true ->
  winding_down n (callB s) ->
  winding_down (n + turns ResumeB sched)
    (callB (run_turns statusMap defaultCount E A B sched s))
  /\ is_finished (callA (run_turns statusMap defaultCount E A B sched s)) = true.
Proof.
  intros HA HB. revert s n.
  induction sched as [|t sched IH]; intros s n Hs Ha Hn.
  - unfold turns. simpl. rewrite Nat.add_0_r. auto.
  - rewrite turns_cons.
    change (run_turns statusMap defaultCount E A B (t :: sched) s)
      with (run_turns statusMap defaultCount E A B sched
              (resume_turn statusMap defaultCount E A B s t)).
    pose proof (turn_taken s t HA Hs) as Hs'.
    assert (HidB : id (inProgressHistoryMp (store s)) <> B).
    { destruct Hs as (_ & H2 & _). rewrite (H2 Ha). congruence. }
    destruct t; cbv beta iota delta [is_turn].
    + replace (n + (0 + turns ResumeB sched))%nat
        with (n + turns ResumeB sched)%nat by lia.
      apply IH; [exact Hs' | | exact Hn].
      unfold resume_turn. cbn [callA].
      destruct (callA s); try discriminate Ha. reflexivity.
    + replace (n + (1 + turns ResumeB sched))%nat
        with (S n + turns ResumeB sched)%nat by lia.
      apply IH; [exact Hs' | exact Ha |]. unfold resume_turn. cbn [callB].
      apply resume_winds_down; [exact HidB | exact Hn].
Qed.

End TwoCalls.

(** C1, as the code has it.  While the record names a non-empty [A]:
    the call with the same id [A] returns at once and changes nothing.
    The call with another non-empty id [B] is not a no-op: it writes
    [{id: B, page: 1}] into the record and is suspended at its first
    [await].  From there, in whatever order the two calls are resumed:
    [A]'s call starts no further call of the refresher and has ended
    by its second resumption, its [finally] leaving the record's id
    empty; and once [A]'s call has ended, [B]'s call starts no further
    call of the refresher either and has ended by its second
    resumption, with the record at [{id: '', page: 1}]. *)
Theorem start_while_crawling statusMap defaultCount E (A B : string) pc w :
  A <> "" -> B <> "" ->
  id (inProgressHistoryMp w) = A ->
  is_finished pc = false ->
  getHistoryMpArticles A w = (Finished (Return tt), w)
  /\ (B <> A ->
      let start := getHistoryMpArticles B w in
      start = (AwaitFindFeed,
               set_inProgressHistoryMp {| id := B; page := 1 |} w)
      /\ forall sched,
           let s :=
             run_turns statusMap defaultCount E A B sched
               {| callA := pc; callB := start.1; store := start.2 |} in
           ((1 <= turns ResumeA sched)%nat ->
            forall i p, callA s <> AwaitRefresh i p)
           /\ ((2 <= turns ResumeA sched)%nat -> is_finished (callA s) = true)
           /\ (is_finished (callA s) = true ->
               id (inProgressHistoryMp (store s)) = ""
               /\ forall sched',
                    let s' :=
                      run_turns statusMap defaultCount E A B sched' s in
                    ((1 <= turns ResumeB sched')%nat ->
                     forall i p, callB s' <> AwaitRefresh i p)
                    /\ ((2 <= turns ResumeB sched')%nat ->
                        is_finished (callB s') = true
                        /\ inProgressHistoryMp (store s')
                           = {| id := ""; page := 1 |}))).
Proof.
  intros HA HB Hid Hpc. split.
  - unfold getHistoryMpArticles. rewrite Hid, String.eqb_refl. reflexivity.
  - intros HBA. cbv zeta.
    assert (Hstart : getHistoryMpArticles B w
                     = (AwaitFindFeed,
                        set_inProgressHistoryMp {| id := B; page := 1 |} w)).
    { unfold getHistoryMpArticles. rewrite Hid.
      destruct (String.eqb_spec A B); [congruence|]. simpl.
      destruct (String.eqb_spec B ""); [contradiction | reflexivity]. }
    rewrite Hstart. cbn [fst snd]. split; [reflexivity|].
    intros sched.
    set (s0 := {| callA := pc; callB := AwaitFindFeed;
                  store := set_inProgressHistoryMp
                             {| id := B; page := 1 |} w |}).
    assert (Hs0 : record_taken A s0).
    { unfold record_taken, s0. cbn [callA callB store]. rewrite Hpc.
      split; [simpl; exact HBA|]. split; discriminate. }
    pose proof (run_taken statusMap defaultCount E A B sched s0 HA Hs0) as Hs.
    pose proof (run_winds_down_A statusMap defaultCount E A B sched s0 0
                  HA Hs0 I) as HwA.
    apply winding_down_spec in HwA. destruct HwA as [HA1 HA2].
    split; [exact HA1|]. split; [exact HA2|].
    intros Hfin. split; [apply Hs, Hfin|].
    intros sched'.
    set (s := run_turns statusMap defaultCount E A B sched s0) in *.
    pose proof (run_taken statusMap defaultCount E A B sched' s HA Hs) as Hs'.
    destruct (run_winds_down_B statusMap defaultCount E A B sched' s 0
                HA HB Hs Hfin I) as [HwB Hfin'].
    apply winding_down_spec in HwB. destruct HwB as [HB1 HB2].
    split; [exact HB1|]. intros H2. split; [exact (HB2 H2)|].
    apply Hs'; [exact Hfin' | exact (HB2 H2)].
Qed.

(** The crawl of [MP_A] waits between two pages; the same id again,
    then [MP_B]: with the calls resumed in the order B, A, A, B, B,
    both have ended and the record is back at [{id: '', page: 1}]. *)
Lemma start_while_crawling_witness :
  getHistoryMpArticles "MP_A" world_crawling_A
  = (Finished (Return tt), world_crawling_A)
  /\ getHistoryMpArticles "MP_B" world_crawling_A
     = (AwaitFindFeed,
        set_inProgressHistoryMp {| id := "MP_B"; page := 1 |} world_crawling_A)
  /\ inProgressHistoryMp
       (store
          (run_turns statusMap0 15 (env_const (HttpOk [item1; item2]))
             "MP_A" "MP_B" [ResumeB; ResumeB]
             (run_turns statusMap0 15 (env_const (HttpOk [item1; item2]))
                "MP_A" "MP_B" [ResumeB; ResumeA; ResumeA]
                {| callA := AwaitDelay 990;
                   callB := (getHistoryMpArticles "MP_B" world_crawling_A).1;
                   store := (getHistoryMpArticles "MP_B" world_crawling_A).2
                |})))
     = {| id := ""; page := 1 |}.
Proof.
  assert (HA : "MP_A" <> "") by discriminate.
  assert (HB : "MP_B" <> "") by discriminate.
  assert (HBA : "MP_B" <> "MP_A") by discriminate.
  pose proof (start_while_crawling statusMap0 15
                (env_const (HttpOk [item1; item2]))
                "MP_A" "MP_B" (AwaitDelay 990) world_crawling_A
                HA HB eq_refl eq_refl) as [H1 H2].
  split; [exact H1|].
  specialize (H2 HBA). cbv zeta in H2. destruct H2 as [Hstart Hrun].
  split; [exact Hstart|].
  destruct (Hrun [ResumeB; ResumeA; ResumeA]) as (_ & Hfin & Hafter).
  assert (H22 : (2 <= 2)%nat) by lia.
  destruct (Hafter (Hfin H22)) as [_ HB2].
  exact (proj2 (proj2 (HB2 [ResumeB; ResumeB]) H22)).
Defined.

(** C1 fails as stated: with the crawl of [MP_A] waiting at page 3, the
    call for [MP_B] replaces the record [{id: 'MP_A', page: 3}] by
    [{id: 'MP_B', page: 1}] and has a crawl of its own under way, and
    [MP_A]'s call, resumed from its delay, ends without another page. *)
Lemma second_start_takes_over :
  let w := world_crawling_A in
  let start := getHistoryMpArticles "MP_B" w in
  inProgressHistoryMp w = {| id := "MP_A"; page := 3 |}
  /\ "MP_A" <> "" /\ "MP_B" <> "" /\ "MP_B" <> "MP_A"
  /\ start.1 = AwaitFindFeed
  /\ inProgressHistoryMp start.2 = {| id := "MP_B"; page := 1 |}
  /\ inProgressHistoryMp start.2 <> inProgressHistoryMp w
  /\ (resume statusMap0 15 (env_const (HttpOk [item1; item2])) "MP_A"
        (AwaitDelay 990) start.2).1 = Finished (Return tt).
Proof.
  cbv zeta. repeat split; discriminate.
Qed.

(** [Math_ceil_div] is the ceiling of the quotient. *)
Lemma Math_ceil_div_spec a b :
  0 < b -> (Math_ceil_div a b - 1) * b < a <= Math_ceil_div a b * b.
Proof.
  intros Hb. unfold Math_ceil_div.
  pose proof (Z.div_mod (- a) b ltac:(lia)) as Hdm.
  pose proof (Z.mod_pos_bound (- a) b Hb) as Hm.
  nia.
Qed.

Lemma feed_findFirstOrThrow_run E k w :
  db_fault E (tick w) = false ->
  feed_findFirstOrThrow E k w =
  (match find_feed k (feeds w) with
   | Some f => Return f
   | None => Throw RecordNotFound
   end, set_tick (S (tick w)) w).
Proof.
  intros H. unfold feed_findFirstOrThrow. unfold_monad. simpl. rewrite H.
  simpl. destruct (find_feed k (feeds w)); reflexivity.
Qed.

Lemma article_count_run E k w :
  db_fault E (tick w) = false ->
  article_count E k w =
  (Return (Z.of_nat (size (filter
             (fun kv : string * Article => article_mpId kv.2 = k)
             (articles w)))),
   set_tick (S (tick w)) w).
Proof.
  intros H. unfold article_count. unfold_monad. simpl. rewrite H.
  reflexivity.
Qed.

(** C10. For a feed with no stored article and [hasHistory] other than
    0, and a positive page size, [getHistoryMpArticles] sets the
    starting page to [Math.ceil(0 / defaultCount) = 0]: after the two
    database reads the call is suspended in
    [refreshMpArticlesAndUpdateFeed(mpId, 0)], its first call of the
    refresher, and the record is [{id: mpId, page: 0}]. *)
Theorem first_crawl_page_zero statusMap defaultCount E mpId w f :
  0 < defaultCount ->
  mpId <> "" ->
  id (inProgressHistoryMp w) <> mpId ->
  db_fault E (tick w) = false ->
  db_fault E (S (tick w)) = false ->
  find_feed mpId (feeds w) = Some f ->
  feed_hasHistory f <> 0 ->
  size (filter (fun kv : string * Article => article_mpId kv.2 = mpId)
          (articles w)) = 0%nat ->
  let start := getHistoryMpArticles mpId w in
  let run := resume_n statusMap defaultCount E 2 mpId start.1 start.2 in
  start.1 = AwaitFindFeed
  /\ Math_ceil_div 0 defaultCount = 0
  /\ run.1 = AwaitRefresh 999 0
  /\ inProgressHistoryMp run.2 = {| id := mpId; page := 0 |}.
Proof.
  intros Hdc Hne Hid Hdb0 Hdb1 Hfeed Hh Hcount start run.
  assert (Hstart : start = (AwaitFindFeed,
            set_inProgressHistoryMp {| id := mpId; page := 1 |} w)).
  { subst start. unfold getHistoryMpArticles.
    destruct (String.eqb_spec (id (inProgressHistoryMp w)) mpId);
      [contradiction|]. simpl.
    destruct (String.eqb_spec mpId ""); [contradiction | reflexivity]. }
  assert (Hrun : run = (AwaitRefresh 999 0,
            set_inProgressHistoryMp {| id := mpId; page := 0 |}
              (set_tick (S (S (tick w))) w))).
  { subst run. rewrite Hstart. cbn [fst snd].
    set (w1 := set_inProgressHistoryMp {| id := mpId; page := 1 |} w).
    assert (H1 : resume statusMap defaultCount E mpId AwaitFindFeed w1
                 = (AwaitCount, set_tick (S (tick w)) w1)).
    { unfold resume. rewrite feed_findFirstOrThrow_run by exact Hdb0.
      change (feeds w1) with (feeds w). rewrite Hfeed.
      destruct (Z.eqb_spec (feed_hasHistory f) 0); [contradiction|].
      reflexivity. }
    assert (H2 : resume statusMap defaultCount E mpId AwaitCount
                   (set_tick (S (tick w)) w1)
                 = (AwaitRefresh 999 0,
                    set_inProgressHistoryMp {| id := mpId; page := 0 |}
                      (set_tick (S (S (tick w))) w))).
    { unfold resume. rewrite article_count_run by exact Hdb1.
      change (articles (set_tick (S (tick w)) w1)) with (articles w).
      rewrite Hcount.
      change (Math_ceil_div (Z.of_nat 0) defaultCount) with 0.
      unfold loop_head.
      cbn [tick set_tick set_inProgressHistoryMp inProgressHistoryMp id page].
      rewrite String.eqb_refl. reflexivity. }
    cbn [resume_n]. rewrite H1, H2. reflexivity. }
  rewrite Hstart, Hrun. repeat split.
Qed.

(** [MP_A] with an empty article table and a page size of 15. *)
Lemma first_crawl_page_zero_witness :
  (resume_n statusMap0 15 (env_const (HttpOk [item1; item2])) 2 "MP_A"
     AwaitFindFeed (getHistoryMpArticles "MP_A" world0).2).1
  = AwaitRefresh 999 0.
Proof.
  assert (Hdc : 0 < 15) by lia.
  assert (Hne : "MP_A" <> "") by discriminate.
  assert (Hid : id (inProgressHistoryMp world0) <> "MP_A") by discriminate.
  assert (Hh : feed_hasHistory feedA <> 0) by discriminate.
  assert (Hcount : size (filter (fun kv : string * Article =>
                                   article_mpId kv.2 = "MP_A")
                           (articles world0)) = 0%nat)
    by (vm_compute; reflexivity).
  exact (proj1 (proj2 (proj2
           (first_crawl_page_zero statusMap0 15
              (env_const (HttpOk [item1; item2])) "MP_A" world0 feedA
              Hdc Hne Hid eq_refl eq_refl eq_refl Hh Hcount)))).
Defined.

(** ** Claims about the rounds of the bulk refresh *)

Lemma elem_of_Set_add x y s : x ∈ Set_add y s <-> x ∈ s \/ x = y.
Proof.
  unfold Set_add. case_bool_decide as Hy.
  - split; [auto|]. intros [H | ->]; assumption.
  - rewrite elem_of_app, list_elem_of_singleton. reflexivity.
Qed.

Lemma round_failed_iff r :
  round_failed r = true <-> 0 < errorCount r \/ articlesCount r = 0.
Proof.
  unfold round_failed. rewrite orb_true_iff, Z.ltb_lt, Z.eqb_eq. reflexivity.
Qed.

Section Rounds.

Variable statusMap : StatusMap.
Variable defaultCount : Z.
Variable E : Env.

(** A round calls the refresher once for each of its feeds, in order. *)
Lemma round_calls_feeds feeds_ w :
  map fst (round_calls statusMap defaultCount E feeds_ w) = feeds_.
Proof.
  revert w. induction feeds_ as [|x rest IH]; intros w; simpl; [reflexivity|].
  destruct (refresh_returns statusMap defaultCount E x 1 w) as (r & w' & Hr).
  rewrite Hr. simpl. rewrite IH. reflexivity.
Qed.

(** A round returns, and its failure set holds what it held before and
    the feeds whose call met the test. *)
Lemma round_feeds_spec feeds_ acc w :
  exists failed w',
    round_feeds statusMap defaultCount E feeds_ acc w = (Return failed, w')
    /\ forall x,
         x ∈ failed <->
         x ∈ acc \/ exists r,
           (x, r) ∈ round_calls statusMap defaultCount E feeds_ w
           /\ round_failed r = true.
Proof.
  revert acc w. induction feeds_ as [|y rest IH]; intros acc w.
  - exists acc, w. split; [reflexivity|]. intros x. split; [auto|].
    intros [H | (r & H & _)]; [exact H | inversion H].
  - simpl. unfold bind at 1. unfold try_catch, bind at 1.
    destruct (refresh_returns statusMap defaultCount E y 1 w) as (r & w1 & Hr).
    rewrite Hr. unfold ret at 1. unfold bind at 1. unfold sleep, ret at 1.
    destruct (IH (if round_failed r then Set_add y acc else acc) w1)
      as (failed & w' & Hrun & Hmem).
    exists failed, w'. split; [exact Hrun|].
    intros x. rewrite Hmem. split.
    + intros [Hx | (r' & Hin & Hf)].
      * destruct (round_failed r) eqn:Hrf.
        -- apply elem_of_Set_add in Hx. destruct Hx as [Hx | ->]; [auto|].
           right. exists r. split; [left | exact Hrf].
        -- auto.
      * right. exists r'. split; [right; exact Hin | exact Hf].
    + intros [Hx | (r' & Hin & Hf)].
      * left. destruct (round_failed r); [apply elem_of_Set_add|]; auto.
      * apply elem_of_cons in Hin. destruct Hin as [[= -> ->] | Hin].
        -- left. rewrite Hf. apply elem_of_Set_add. auto.
        -- right. eauto.
Qed.

(** One turn of the round loop. *)
Lemma rounds_unfold budget st w :
  exists failed w1,
    round_feeds statusMap defaultCount E (feedsToUpdate st) [] w
    = (Return failed, w1)
    /\ rounds statusMap defaultCount E (S budget) st w =
       match failed with
       | [] => (Return {| round := round st;
                          feedsToUpdate := feedsToUpdate st;
                          finalFailedFeeds := [] |}, w1)
       | _ :: _ =>
           rounds statusMap defaultCount E budget
             {| round := S (round st);
                feedsToUpdate := failed;
                finalFailedFeeds := failed |} w1
       end.
Proof.
  destruct (round_feeds_spec (feedsToUpdate st) [] w) as (failed & w1 & Hrun & _).
  exists failed, w1. split; [exact Hrun|].
  simpl. unfold bind at 1. rewrite Hrun.
  destruct failed; reflexivity.
Qed.

(** The loop returns; it leaves before [round] has passed all of its
    [budget] values only with an empty failure set, and it uses them all
    only with a failure set that is not empty. *)
Lemma rounds_exit budget st w :
  exists st' w',
    rounds statusMap defaultCount E budget st w = (Return st', w')
    /\ (round st <= round st' <= round st + budget)%nat
    /\ ((round st' < round st + budget)%nat -> finalFailedFeeds st' = [])
    /\ ((0 < budget)%nat -> round st' = (round st + budget)%nat ->
        finalFailedFeeds st' <> []).
Proof.
  revert st w. induction budget as [|n IH]; intros st w.
  - exists st, w. split; [reflexivity|]. repeat split; lia.
  - destruct (rounds_unfold n st w) as (failed & w1 & _ & Hrun).
    rewrite Hrun. destruct failed as [|x failed].
    + eexists _, w1. split; [reflexivity|]. simpl.
      repeat split; try lia; auto.
    + destruct (IH {| round := S (round st);
                      feedsToUpdate := x :: failed;
                      finalFailedFeeds := x :: failed |} w1)
        as (st' & w' & Hrun' & Hbound & Hearly & Hfull).
      simpl in Hbound, Hearly, Hfull.
      exists st', w'. split; [exact Hrun'|].
      split; [lia|]. split.
      * intros H. apply Hearly. lia.
      * intros _ H. destruct n as [|n].
        -- simpl in Hrun'. injection Hrun' as <- _. simpl. discriminate.
        -- apply Hfull; lia.
Qed.

End Rounds.

(** C7. In a round of the bulk refresh over the feeds of [st]: the
    round's failure set holds a feed exactly when the result of its
    refresh in that round has [errorCount > 0] or [articlesCount === 0];
    so a feed whose refresh reported no error and zero articles is in
    the set, the loop (with a round left) goes on with the set as the
    next round's feeds, and that round calls the refresher for it
    again.  The loop of [maxRounds] = 8 rounds returns, and when it ends
    with [round] at 8 or below, that is through [break], the failure
    set of its last round is empty. *)
Theorem round_failure_set statusMap defaultCount E st w :
  exists failed w1,
    round_feeds statusMap defaultCount E (feedsToUpdate st) [] w
    = (Return failed, w1)
    /\ (forall x,
          x ∈ failed <->
          exists r,
            (x, r) ∈ round_calls statusMap defaultCount E (feedsToUpdate st) w
            /\ (0 < errorCount r \/ articlesCount r = 0))
    /\ (forall x r budget,
          (x, r) ∈ round_calls statusMap defaultCount E (feedsToUpdate st) w ->
          errorCount r = 0 -> articlesCount r = 0 ->
          x ∈ failed
          /\ rounds statusMap defaultCount E (S (S budget)) st w
             = rounds statusMap defaultCount E (S budget)
                 {| round := S (round st);
                    feedsToUpdate := failed;
                    finalFailedFeeds := failed |} w1
          /\ x ∈ map fst (round_calls statusMap defaultCount E failed w1))
    /\ (forall feeds_,
          exists st' w',
            rounds statusMap defaultCount E maxRounds
              {| round := 1; feedsToUpdate := feeds_;
                 finalFailedFeeds := [] |} w
            = (Return st', w')
            /\ (1 <= round st' <= 9)%nat
            /\ ((round st' <= 8)%nat -> finalFailedFeeds st' = [])
            /\ (round st' = 9%nat -> finalFailedFeeds st' <> [])).
Proof.
  destruct (round_feeds_spec statusMap defaultCount E (feedsToUpdate st) [] w)
    as (failed & w1 & Hrun & Hmem).
  assert (Hiff : forall x,
            x ∈ failed <->
            exists r,
              (x, r) ∈ round_calls statusMap defaultCount E (feedsToUpdate st) w
              /\ (0 < errorCount r \/ articlesCount r = 0)).
  { intros x. rewrite Hmem. split.
    - intros [H | (r & Hin & Hf)]; [inversion H|].
      exists r. split; [exact Hin | apply round_failed_iff, Hf].
    - intros (r & Hin & Hf). right. exists r.
      split; [exact Hin | apply round_failed_iff, Hf]. }
  exists failed, w1. split; [exact Hrun|]. split; [exact Hiff|]. split.
  - intros x r budget Hin He Ha.
    assert (Hx : x ∈ failed) by (apply Hiff; exists r; auto).
    split; [exact Hx|]. split.
    + destruct (rounds_unfold statusMap defaultCount E (S budget) st w)
        as (failed' & w1' & Hrun' & Hloop).
      rewrite Hrun in Hrun'. injection Hrun' as <- <-.
      rewrite Hloop. destruct failed; [inversion Hx | reflexivity].
    + rewrite round_calls_feeds. exact Hx.
  - intros feeds_.
    destruct (rounds_exit statusMap defaultCount E maxRounds
                {| round := 1; feedsToUpdate := feeds_;
                   finalFailedFeeds := [] |} w)
      as (st' & w' & Hloop & Hbound & Hearly & Hfull).
    unfold maxRounds in *. simpl in Hbound, Hearly, Hfull.
    exists st', w'. split; [exact Hloop|]. split; [lia|]. split.
    + intros H. apply Hearly. lia.
    + intros H. apply Hfull; lia.
Qed.

(** An upstream with empty pages: [MP_A] is refreshed without error and
    is in the failure set of the round. *)
Lemma round_failure_set_witness :
  exists failed w1,
    round_feeds statusMap0 15 (env_const (HttpOk [])) ["MP_A"; "MP_B"] [] world0
    = (Return failed, w1)
    /\ "MP_A" ∈ failed.
Proof.
  destruct (round_failure_set statusMap0 15 (env_const (HttpOk []))
              {| round := 1; feedsToUpdate := ["MP_A"; "MP_B"];
                 finalFailedFeeds := [] |} world0)
    as (failed & w1 & Hrun & _ & Hzero & _).
  exists failed, w1. split; [exact Hrun|].
  apply (Hzero "MP_A" (refresh_succeeded "MP_A" 0 0) 0%nat).
  - vm_compute. constructor.
  - reflexivity.
  - reflexivity.
Defined.

(** * Further properties of the service *)

(** ** The ledger: release, and what quarantine and invalidation do to
    the next selection *)

Lemma removeBlockedAccount_run E vid w :
  removeBlockedAccount E vid w =
  (Return tt,
   match blockedAccountsMap w !! today_date E (tick w) with
   | Some l =>
       set_blockedAccountsMap
         (<[today_date E (tick w) :=
              List.filter (fun x => negb (String.eqb x vid)) l]>
            (blockedAccountsMap w))
         (set_tick (S (tick w)) w)
   | None => set_tick (S (tick w)) w
   end).
Proof.
  unfold removeBlockedAccount, getTodayDate. unfold_monad. simpl.
  destruct (blockedAccountsMap w !! today_date E (tick w)); reflexivity.
Qed.

Lemma elem_of_filter_neqb (vid x : string) (l : list string) :
  x ∈ List.filter (fun y => negb (String.eqb y vid)) l <-> x ∈ l /\ x <> vid.
Proof.
  rewrite !list_elem_of_In, filter_In, negb_true_iff.
  destruct (String.eqb_spec x vid); split; intros [H1 H2];
    (split; [exact H1|]); congruence.
Qed.

Lemma filter_neqb_id (vid : string) (l : list string) :
  vid ∉ l -> List.filter (fun y => negb (String.eqb y vid)) l = l.
Proof.
  induction l as [|y l IH]; intros H; simpl; [reflexivity|].
  apply not_elem_of_cons in H. destruct H as [Hne Hl].
  destruct (String.eqb_spec y vid); [congruence|]. simpl.
  rewrite IH by exact Hl. reflexivity.
Qed.

(** What [getAvailableAccount] returns is a row of the table, enabled
    and not listed today, whatever the database and the draw do. *)
Lemma getAvailableAccount_sound statusMap E w a w' :
  getAvailableAccount statusMap E w = (Return a, w') ->
  a ∈ accounts w /\ eligible statusMap E w a
  /\ w' = set_tick (S (S (S (tick w)))) w.
Proof.
  destruct (db_fault E (S (tick w))) eqn:Hdb.
  - unfold getAvailableAccount, account_findMany, getBlockedAccountIds,
      getTodayDate. unfold_monad. simpl. rewrite Hdb. simpl. discriminate.
  - rewrite (getAvailableAccount_run statusMap E w Hdb).
    destruct (take 10 _) as [|a0 rest] eqn:Hc; [discriminate|].
    intros H.
    set (pick := nth (Math_random E (S (S (tick w))) mod length (a0 :: rest))%nat
                   (a0 :: rest) a0) in H.
    assert (Hpick : pick ∈ a0 :: rest).
    { apply list_elem_of_In, nth_In, Nat.mod_upper_bound. simpl. lia. }
    assert (Ha : pick = a) by congruence.
    assert (Hw : w' = set_tick (S (S (S (tick w)))) w) by congruence.
    clearbody pick. subst pick w'. clear H.
    rewrite <- Hc in Hpick. apply subseteq_take in Hpick.
    apply list_elem_of_In, filter_In in Hpick. destruct Hpick as [Hin Hav].
    apply bool_decide_eq_true in Hav.
    split; [apply list_elem_of_In, Hin|]. split; [exact Hav | reflexivity].
Qed.

(** The handler's effect on the ledger once its first statement is
    through. *)
Lemma onRejected_ledger statusMap E errMsg xid w w1 :
  disable_or_log statusMap E errMsg xid w = (Return tt, w1) ->
  exists w2,
    onRejected (A := unit) statusMap E errMsg xid w
    = (Throw (RequestRejected errMsg), w2)
    /\ accounts w2 = accounts w1
    /\ tick w2 = S (tick w1)
    /\ blockedAccountsMap w2 =
       match blockedAccountsMap w !! today_date E (tick w1) with
       | Some l =>
           <[today_date E (tick w1) :=
               if String.eqb xid "" then l else (l ++ [xid])%list]>
             (blockedAccountsMap w)
       | None => blockedAccountsMap w
       end.
Proof.
  intros Hd.
  assert (Hq : exists w2,
             quarantine E errMsg xid w1 = (Return tt, w2)
             /\ accounts w2 = accounts w1 /\ tick w2 = S (tick w1)
             /\ blockedAccountsMap w2 =
                match blockedAccountsMap w1 !! today_date E (tick w1) with
                | Some l =>
                    <[today_date E (tick w1) :=
                        if String.eqb xid "" then l else (l ++ [xid])%list]>
                      (blockedAccountsMap w1)
                | None => blockedAccountsMap w1
                end).
  { unfold quarantine, getTodayDate. unfold_monad. simpl.
    destruct (blockedAccountsMap w1 !! today_date E (tick w1)); simpl.
    - eexists. repeat split.
    - destruct (includes "WeReadError400" errMsg); eexists; repeat split. }
  destruct Hq as (w2 & Hq & Ha & Ht & Hl).
  exists w2. split.
  - unfold onRejected. unfold bind at 1. rewrite Hd.
    unfold bind at 1. rewrite Hq. reflexivity.
  - apply disable_or_log_keeps in Hd. destruct Hd as [_ Hl1].
    rewrite Hl1 in Hl. auto.
Qed.

(** X1. A credential quarantined by the rejection handler and then
    released on the same day leaves the ledger as it was before the
    failed request, when it was not already on today's list. *)
Theorem quarantine_then_release statusMap E (errMsg xid : string) w w1 l :
  xid <> "" ->
  disable_or_log statusMap E errMsg xid w = (Return tt, w1) ->
  blockedAccountsMap w !! today_date E (tick w1) = Some l ->
  xid ∉ l ->
  today_date E (S (tick w1)) = today_date E (tick w1) ->
  exists w3,
    removeBlockedAccount E xid
      (onRejected (A := unit) statusMap E errMsg xid w).2
    = (Return tt, w3)
    /\ blockedAccountsMap w3 = blockedAccountsMap w.
Proof.
  intros Hx Hd Hl Hnin Hday.
  destruct (onRejected_ledger statusMap E errMsg xid w w1 Hd)
    as (w2 & Hrun & _ & Ht & Hl2).
  rewrite Hrun. simpl snd. rewrite removeBlockedAccount_run.
  eexists. split; [reflexivity|].
  rewrite Ht, Hday, Hl2, Hl.
  destruct (String.eqb_spec xid ""); [contradiction|].
  rewrite lookup_insert_eq. simpl.
  rewrite insert_insert_eq.
  rewrite List.filter_app. simpl. rewrite String.eqb_refl. simpl.
  rewrite app_nil_r, filter_neqb_id by exact Hnin.
  apply insert_id. exact Hl.
Qed.

(** Quarantine of 101 on a day whose list holds 102, then its release. *)
Lemma quarantine_then_release_witness :
  exists w3,
    removeBlockedAccount (env_const (HttpFail "WeReadError429")) "101"
      (onRejected (A := unit) statusMap0 (env_const (HttpFail "WeReadError429"))
         "WeReadError429" "101" world_listed).2
    = (Return tt, w3)
    /\ blockedAccountsMap w3 = blockedAccountsMap world_listed.
Proof.
  apply (quarantine_then_release statusMap0
           (env_const (HttpFail "WeReadError429"))
           "WeReadError429" "101" world_listed world_listed ["102"]).
  - discriminate.
  - reflexivity.
  - reflexivity.
  - intros H. apply list_elem_of_singleton in H. discriminate H.
  - reflexivity.
Defined.

(** X2. After [removeBlockedAccount(vid)], on the same day,
    [getBlockedAccountIds] lists exactly the ids it listed before other
    than [vid]; and a release on a day without a list creates none. *)
Theorem release_unlists E (vid : string) w :
  today_date E (S (tick w)) = today_date E (tick w) ->
  exists w1 listed w2,
    removeBlockedAccount E vid w = (Return tt, w1)
    /\ getBlockedAccountIds E w1 = (Return listed, w2)
    /\ (forall x, x ∈ listed <-> x ∈ quarantined_today E w /\ x <> vid)
    /\ (blockedAccountsMap w !! today_date E (tick w) = None ->
        blockedAccountsMap w1 = blockedAccountsMap w).
Proof.
  intros Hday. rewrite removeBlockedAccount_run.
  eexists. eexists. eexists. split; [reflexivity|].
  rewrite getBlockedAccountIds_run. split; [reflexivity|].
  unfold quarantined_today.
  destruct (blockedAccountsMap w !! today_date E (tick w)) as [l|] eqn:Hl.
  - split; [|discriminate].
    intros x. cbn [tick set_tick set_blockedAccountsMap blockedAccountsMap].
    rewrite Hday, lookup_insert_eq. simpl.
    rewrite !list_elem_of_In, !filter_In.
    destruct (String.eqb_spec x vid); simpl; intuition congruence.
  - split; [|reflexivity].
    intros x. cbn [tick set_tick blockedAccountsMap].
    rewrite Hday, Hl. simpl. split; [intros H; inversion H | intros [H _]; inversion H].
Qed.

(** Release of 102 from the day's list [102]: nothing is listed. *)
Lemma release_unlists_witness :
  exists w1 w2,
    removeBlockedAccount (env_const (HttpOk [])) "102" world_listed
    = (Return tt, w1)
    /\ getBlockedAccountIds (env_const (HttpOk [])) w1 = (Return [], w2).
Proof.
  destruct (release_unlists (env_const (HttpOk [])) "102" world_listed eq_refl)
    as (w1 & listed & w2 & H1 & H2 & Hmem & _).
  exists w1, w2. split; [exact H1|].
  destruct listed as [|x rest]; [exact H2|].
  exfalso. destruct (proj1 (Hmem x) ltac:(left)) as [Hin Hne].
  vm_compute in Hin. apply list_elem_of_singleton in Hin. contradiction.
Defined.

(** X3. If today's list exists when a request made with the credential
    [xid] is rejected, the handler leaves [xid] on that list; and on
    any store whose list for the current day holds [xid], a selection
    does not return that credential: in particular not on the
    handler's own store, the same day. *)
Theorem quarantined_not_selected statusMap E (errMsg xid : string) w w1 l :
  xid <> "" ->
  disable_or_log statusMap E errMsg xid w = (Return tt, w1) ->
  blockedAccountsMap w !! today_date E (tick w1) = Some l ->
  let w2 := (onRejected (A := unit) statusMap E errMsg xid w).2 in
  blockedAccountsMap w2 !! today_date E (tick w1) = Some (l ++ [xid])%list
  /\ (forall w' l' a w3,
        blockedAccountsMap w' !! today_date E (tick w') = Some l' ->
        xid ∈ l' ->
        getAvailableAccount statusMap E w' = (Return a, w3) ->
        account_id a <> xid)
  /\ (today_date E (tick w2) = today_date E (tick w1) ->
      forall a w3,
        getAvailableAccount statusMap E w2 = (Return a, w3) ->
        account_id a <> xid).
Proof.
  intros Hx Hd Hl w2.
  assert (Hlisted : forall w' l' a w3,
            blockedAccountsMap w' !! today_date E (tick w') = Some l' ->
            xid ∈ l' ->
            getAvailableAccount statusMap E w' = (Return a, w3) ->
            account_id a <> xid).
  { intros w' l' a w3 Hl' Hin Hsel.
    apply getAvailableAccount_sound in Hsel.
    destruct Hsel as (_ & [_ Hnot] & _).
    intros Heq. apply Hnot. unfold quarantined_today. rewrite Hl'. simpl.
    apply list_elem_of_In, filter_In. split.
    - apply list_elem_of_In. rewrite Heq. exact Hin.
    - rewrite Heq. destruct (String.eqb_spec xid "");
        [contradiction | reflexivity]. }
  destruct (onRejected_ledger statusMap E errMsg xid w w1 Hd)
    as (w2' & Hrun & _ & Ht & Hl2).
  assert (Hw2 : w2 = w2') by (subst w2; rewrite Hrun; reflexivity).
  assert (Hnow : blockedAccountsMap w2 !! today_date E (tick w1)
                 = Some (l ++ [xid])%list).
  { rewrite Hw2, Hl2, Hl, lookup_insert_eq.
    destruct (String.eqb_spec xid ""); [contradiction | reflexivity]. }
  split; [exact Hnow|]. split; [exact Hlisted|].
  intros Hday a w3 Hsel.
  apply (Hlisted w2 (l ++ [xid])%list a w3); [|apply elem_of_app; right; left
                                              | exact Hsel].
  rewrite Hday. exact Hnow.
Qed.

(** 101 is rejected on a day whose list exists; the next draw gives 102. *)
Lemma quarantined_not_selected_witness :
  exists a w3,
    getAvailableAccount statusMap0 (env_const (HttpFail "WeReadError429"))
      (onRejected (A := unit) statusMap0 (env_const (HttpFail "WeReadError429"))
         "WeReadError429" "101" (set_blockedAccountsMap
                                    {[ "2024-01-01" := [] ]} world0)).2
    = (Return a, w3)
    /\ account_id a <> "101".
Proof.
  destruct (getAvailableAccount statusMap0 (env_const (HttpFail "WeReadError429"))
      (onRejected (A := unit) statusMap0 (env_const (HttpFail "WeReadError429"))
         "WeReadError429" "101" (set_blockedAccountsMap
                                    {[ "2024-01-01" := [] ]} world0)).2)
    as [[a|e] w3] eqn:Hsel; [|vm_compute in Hsel; discriminate Hsel].
  exists a, w3. split; [reflexivity|].
  assert (Hx : "101" <> "") by discriminate.
  pose proof (quarantined_not_selected statusMap0
                (env_const (HttpFail "WeReadError429")) "WeReadError429" "101"
                (set_blockedAccountsMap {[ "2024-01-01" := [] ]} world0)
                (set_blockedAccountsMap {[ "2024-01-01" := [] ]} world0)
                [] Hx eq_refl eq_refl) as H.
  cbv zeta in H. destruct H as (_ & _ & H).
  exact (H eq_refl a w3 Hsel).
Defined.




(** ** The fetcher: an empty pool and a rejecting upstream *)

Lemma filter_none {A} (f : A -> bool) (l : list A) :
  (forall a, a ∈ l -> f a = false) -> List.filter f l = [].
Proof.
  induction l as [|a l IH]; intros H; simpl; [reflexivity|].
  rewrite (H a) by left. apply IH. intros b Hb. apply H. right. exact Hb.
Qed.

Lemma onRejected_throws {A} statusMap E errMsg xid w :
  exists e w', onRejected (A := A) statusMap E errMsg xid w = (Throw e, w').
Proof.
  unfold onRejected. unfold bind at 1.
  destruct (disable_or_log statusMap E errMsg xid w) as [[[]|e] w1];
    [|eauto].
  unfold bind at 1.
  destruct (quarantine_run E errMsg xid w1) as (w2 & Hq & _).
  rewrite Hq. unfold throw. eauto.
Qed.

Lemma getMpArticles_rejected statusMap E mpId page_ retryCount w :
  upstream_rejects E mpId ->
  exists e w', getMpArticles statusMap E mpId page_ retryCount w = (Throw e, w').
Proof.
  intros Hrej. revert w.
  induction retryCount as [|n IH]; intros w; simpl; unfold bind;
    destruct (getAvailableAccount statusMap E w) as [[a|e] w1]; eauto;
    unfold try_catch, request_get, bind, consult;
    destruct (Hrej (tick w1) page_ a) as (msg & ->);
    destruct (onRejected_throws (A := list ArticleItem) statusMap E msg
                (account_id a) (set_tick (S (tick w1)) w1)) as (e & w2 & ->).
  - unfold throw. eauto.
  - apply IH.
Qed.

(** X5. With no enabled credential outside today's quarantine (and a
    database that answers), [getMpArticles] throws the no-account error
    at once, whatever [retryCount] is: there is no request and no
    retry, only the two reads of the selection; the refresher turns
    this into its failure result. *)
Theorem no_retry_without_credential statusMap defaultCount E mpId page_
    retryCount w :
  db_fault E (S (tick w)) = false ->
  (forall a, a ∈ accounts w -> ~ eligible statusMap E w a) ->
  getMpArticles statusMap E mpId page_ retryCount w
  = (Throw NoAvailableAccount, set_tick (S (S (tick w))) w)
  /\ refreshMpArticlesAndUpdateFeed statusMap defaultCount E mpId page_ w
     = (Return (refresh_failed mpId), set_tick (S (S (tick w))) w).
Proof.
  intros Hdb Hnone.
  assert (Hsel : getAvailableAccount statusMap E w
                 = (Throw NoAvailableAccount, set_tick (S (S (tick w))) w)).
  { rewrite (getAvailableAccount_run statusMap E w Hdb).
    rewrite filter_none; [reflexivity|].
    intros a Ha. apply bool_decide_eq_false. apply Hnone. exact Ha. }
  assert (Hget : forall n, getMpArticles statusMap E mpId page_ n w
                 = (Throw NoAvailableAccount, set_tick (S (S (tick w))) w)).
  { intros n. destruct n; simpl; unfold bind; rewrite Hsel; reflexivity. }
  split; [apply Hget|].
  rewrite refresh_run, refresh_try_unfold, Hget. reflexivity.
Qed.

(** The only credential of the store is invalid. *)
Lemma no_retry_without_credential_witness :
  getMpArticles statusMap0 (env_const (HttpOk [item1])) "MP_A" 1 3
    (set_accounts [account3] world0)
  = (Throw NoAvailableAccount, set_tick 2 (set_accounts [account3] world0)).
Proof.
  apply (proj1 (no_retry_without_credential statusMap0 15
                  (env_const (HttpOk [item1])) "MP_A" 1 3
                  (set_accounts [account3] world0) eq_refl
                  ltac:(intros a Ha [Hs _];
                        apply list_elem_of_singleton in Ha; subst a;
                        discriminate Hs))).
Defined.

(** X6. When the upstream rejects every request for [mpId], the
    refresher reports the failure result for it and leaves the feed and
    article tables as they were, whatever the retries did. *)
Theorem rejected_fetch_fails statusMap defaultCount E mpId page_ w :
  upstream_rejects E mpId ->
  exists w',
    refreshMpArticlesAndUpdateFeed statusMap defaultCount E mpId page_ w
    = (Return (refresh_failed mpId), w')
    /\ feeds w' = feeds w /\ articles w' = articles w.
Proof.
  intros Hrej.
  destruct (getMpArticles_rejected statusMap E mpId page_ 3 w Hrej)
    as (e & w' & Hg).
  exists w'. rewrite refresh_run, refresh_try_unfold, Hg.
  split; [reflexivity|].
  apply getMpArticles_keeps in Hg. destruct Hg as (Hf & Ha & _). auto.
Qed.

(** An upstream that answers every request with the 400 marker. *)
Lemma rejected_fetch_fails_witness :
  exists w',
    refreshMpArticlesAndUpdateFeed statusMap0 15
      (env_const (HttpFail "WeReadError400")) "MP_A" 1 world0
    = (Return (refresh_failed "MP_A"), w')
    /\ feeds w' = feeds world0 /\ articles w' = articles world0.
Proof.
  apply (rejected_fetch_fails statusMap0 15
           (env_const (HttpFail "WeReadError400")) "MP_A" 1 world0).
  intros t p a. exists "WeReadError400". reflexivity.
Defined.

(** ** The storage of a page *)

Lemma upsert_row_cell mpId it tbl :
  upsert_row mpId it tbl
  = <[item_id it := upsert_cell mpId it (tbl !! item_id it)]> tbl.
Proof. unfold upsert_row, upsert_cell. destruct (tbl !! item_id it); reflexivity. Qed.

Lemma create_row_cell mpId it tbl :
  create_row mpId it tbl
  = <[item_id it := create_cell mpId it (tbl !! item_id it)]> tbl.
Proof.
  unfold create_row, create_cell.
  destruct (tbl !! item_id it) eqn:H; [|reflexivity].
  symmetry. apply insert_id. exact H.
Qed.

Lemma fold_upsert_lookup mpId items (tbl : gmap string Article) k :
  fold_left (fun tbl it => upsert_row mpId it tbl) items tbl !! k
  = fold_left (cell_step (upsert_cell mpId) k) items (tbl !! k).
Proof.
  revert tbl. induction items as [|it items IH]; intros tbl; simpl;
    [reflexivity|].
  rewrite IH. f_equal. rewrite upsert_row_cell. unfold cell_step.
  destruct (String.eqb_spec (item_id it) k) as [<-|Hne].
  - apply lookup_insert_eq.
  - apply lookup_insert_ne. exact Hne.
Qed.

Lemma fold_create_lookup mpId items (tbl : gmap string Article) k :
  fold_left (fun tbl it => create_row mpId it tbl) items tbl !! k
  = fold_left (cell_step (create_cell mpId) k) items (tbl !! k).
Proof.
  revert tbl. induction items as [|it items IH]; intros tbl; simpl;
    [reflexivity|].
  rewrite IH. f_equal. rewrite create_row_cell. unfold cell_step.
  destruct (String.eqb_spec (item_id it) k) as [<-|Hne].
  - apply lookup_insert_eq.
  - apply lookup_insert_ne. exact Hne.
Qed.

(** A cell that holds a row keeps holding one, with the same identity. *)
Lemma upsert_cells_some mpId k items a :
  exists r,
    fold_left (cell_step (upsert_cell mpId) k) items (Some a) = Some r
    /\ article_identity r = article_identity a.
Proof.
  revert a. induction items as [|it items IH]; intros a; simpl; [eauto|].
  unfold cell_step at 2. destruct (String.eqb (item_id it) k); [|apply IH].
  destruct (IH (upsert_cell mpId it (Some a))) as (r & Hr & Hi).
  exists r. split; [exact Hr|]. rewrite Hi. reflexivity.
Qed.

Lemma create_cells_some mpId k items a :
  fold_left (cell_step (create_cell mpId) k) items (Some a) = Some a.
Proof.
  induction items as [|it items IH]; simpl; [reflexivity|].
  unfold cell_step at 2. destruct (String.eqb (item_id it) k); exact IH.
Qed.

(** Items with other ids pass a cell by. *)
Lemma cells_other c k items o :
  k ∉ map item_id items -> fold_left (cell_step c k) items o = o.
Proof.
  revert o. induction items as [|it items IH]; intros o H; simpl;
    [reflexivity|].
  simpl in H. apply not_elem_of_cons in H. destruct H as [Hne Hrest].
  unfold cell_step at 2.
  destruct (String.eqb_spec (item_id it) k); [congruence|].
  apply IH. exact Hrest.
Qed.

(** With distinct ids on the page, the cell of an item's id is what
    that item alone makes of it. *)
Lemma cells_single c items it o :
  NoDup (map item_id items) -> it ∈ items ->
  fold_left (cell_step c (item_id it)) items o = Some (c it o).
Proof.
  revert o. induction items as [|x items IH]; intros o Hnd Hin.
  - inversion Hin.
  - simpl in Hnd. apply NoDup_cons in Hnd. destruct Hnd as [Hx Hnd].
    simpl. unfold cell_step at 2.
    apply elem_of_cons in Hin. destruct Hin as [-> | Hin].
    + rewrite String.eqb_refl. apply cells_other. exact Hx.
    + destruct (String.eqb_spec (item_id x) (item_id it)) as [Heq|Hne].
      * exfalso. apply Hx. rewrite Heq. apply list_elem_of_fmap_2. exact Hin.
      * apply IH; assumption.
Qed.

Lemma upsert_cell_absorbs mpId x r s :
  article_identity r = article_identity (upsert_cell mpId x s) ->
  upsert_cell mpId x (Some r) = upsert_cell mpId x s.
Proof.
  unfold article_identity. destruct s as [a|]; simpl; intros [= -> -> ->];
    reflexivity.
Qed.

Lemma upsert_cells_idem mpId k items o :
  fold_left (cell_step (upsert_cell mpId) k) items
    (fold_left (cell_step (upsert_cell mpId) k) items o)
  = fold_left (cell_step (upsert_cell mpId) k) items o.
Proof.
  induction items as [|x items IH] using rev_ind; [reflexivity|].
  rewrite !fold_left_app. simpl.
  set (s := fold_left (cell_step (upsert_cell mpId) k) items o) in *.
  unfold cell_step at 1 3 4.
  destruct (String.eqb (item_id x) k); [|exact IH].
  destruct (upsert_cells_some mpId k items (upsert_cell mpId x s))
    as (r & -> & Hi).
  f_equal. apply upsert_cell_absorbs. exact Hi.
Qed.

Lemma create_cells_idem mpId k items o :
  fold_left (cell_step (create_cell mpId) k) items
    (fold_left (cell_step (create_cell mpId) k) items o)
  = fold_left (cell_step (create_cell mpId) k) items o.
Proof.
  destruct (fold_left (cell_step (create_cell mpId) k) items o) as [a|] eqn:H.
  - apply create_cells_some.
  - destruct o as [a|]; [rewrite create_cells_some in H; discriminate H|].
    exact H.
Qed.

Lemma stored_page_lookup E mpId items tbl k :
  stored_page E mpId items tbl !! k
  = fold_left
      (cell_step (if String.eqb (database_type E) "sqlite"
                  then upsert_cell mpId else create_cell mpId) k)
      items (tbl !! k).
Proof.
  unfold stored_page. destruct (String.eqb (database_type E) "sqlite").
  - apply fold_upsert_lookup.
  - apply fold_create_lookup.
Qed.

(** What a completed storage step has written. *)
Lemma store_page_run E mpId items w w' :
  store_page E mpId items w = (Return tt, w') ->
  articles w' = stored_page E mpId items (articles w)
  /\ feeds w' = feeds w /\ accounts w' = accounts w
  /\ blockedAccountsMap w' = blockedAccountsMap w.
Proof.
  unfold store_page, stored_page, article_upsert_transaction,
    article_createMany. unfold_monad.
  destruct items as [|it items].
  - simpl. intros [= <-].
    destruct (String.eqb (database_type E) "sqlite"); repeat split.
  - change (0 <? Z.of_nat (length (it :: items))) with true. cbv iota.
    destruct (String.eqb (database_type E) "sqlite"); simpl;
      destruct (db_fault E (tick w)); simpl; intros [= <-];
      repeat split.
Qed.

(** X7. Storing the same page twice leaves the article table as the
    first storage left it, on the upsert path and on the createMany
    path. *)
Theorem store_page_idempotent E mpId items w w1 w2 :
  store_page E mpId items w = (Return tt, w1) ->
  store_page E mpId items w1 = (Return tt, w2) ->
  articles w2 = articles w1.
Proof.
  intros H1 H2.
  apply store_page_run in H1. destruct H1 as (H1 & _).
  apply store_page_run in H2. destruct H2 as (H2 & _).
  rewrite H2, H1. apply map_eq. intros k.
  rewrite !stored_page_lookup.
  destruct (String.eqb (database_type E) "sqlite").
  - apply upsert_cells_idem.
  - apply create_cells_idem.
Qed.

(** The page [item1; item2] stored twice for [MP_A]. *)
Lemma store_page_idempotent_witness :
  articles (store_page (env_const (HttpOk [])) "MP_A" [item1; item2]
              (store_page (env_const (HttpOk [])) "MP_A" [item1; item2]
                 world0).2).2
  = articles (store_page (env_const (HttpOk [])) "MP_A" [item1; item2]
                world0).2.
Proof.
  apply (store_page_idempotent (env_const (HttpOk [])) "MP_A" [item1; item2]
           world0
           (store_page (env_const (HttpOk [])) "MP_A" [item1; item2] world0).2
           (store_page (env_const (HttpOk [])) "MP_A" [item1; item2]
              (store_page (env_const (HttpOk [])) "MP_A" [item1; item2]
                 world0).2).2);
    vm_compute; reflexivity.
Defined.

(** X8. The storage step never deletes an article and never changes
    the id, the feed or the picture of one that exists; a row whose id
    is not on the page is left as it is, and on the createMany path so
    is every existing row. *)
Theorem store_page_keeps_rows E mpId items w w' k old :
  store_page E mpId items w = (Return tt, w') ->
  articles w !! k = Some old ->
  exists r,
    articles w' !! k = Some r
    /\ article_id r = article_id old
    /\ article_mpId r = article_mpId old
    /\ article_picUrl r = article_picUrl old
    /\ (k ∉ map item_id items -> r = old)
    /\ (String.eqb (database_type E) "sqlite" = false -> r = old).
Proof.
  intros Hs Hk. apply store_page_run in Hs. destruct Hs as (Hs & _).
  rewrite Hs, stored_page_lookup, Hk.
  destruct (String.eqb (database_type E) "sqlite").
  - destruct (upsert_cells_some mpId k items old) as (r & Hr & Hi).
    exists r. split; [exact Hr|].
    unfold article_identity in Hi. injection Hi as H1 H2 H3.
    repeat split; try assumption; [|discriminate].
    intros Hnot. rewrite cells_other in Hr by exact Hnot. congruence.
  - rewrite create_cells_some. exists old. repeat split.
Qed.

(** An article stored for [MP_A] and a page for [MP_B] that reuses its
    id: the row stays with [MP_A]. *)
Lemma store_page_keeps_rows_witness :
  exists r,
    articles (store_page (env_const (HttpOk [])) "MP_B" [item1]
                (store_page (env_const (HttpOk [])) "MP_A" [item1; item2]
                   world0).2).2 !! "a1" = Some r
    /\ article_mpId r = "MP_A".
Proof.
  destruct (store_page_keeps_rows (env_const (HttpOk [])) "MP_B" [item1]
              (store_page (env_const (HttpOk [])) "MP_A" [item1; item2]
                 world0).2
              (store_page (env_const (HttpOk [])) "MP_B" [item1]
                 (store_page (env_const (HttpOk [])) "MP_A" [item1; item2]
                    world0).2).2
              "a1"
              {| article_id := "a1"; article_mpId := "MP_A";
                 article_picUrl := "p1"; article_publishTime := 1699990000;
                 article_title := "t1" |})
    as (r & Hr & _ & Hm & _); [vm_compute; reflexivity | vm_compute; reflexivity |].
  exists r. split; [exact Hr | exact Hm].
Defined.

(** X9. After the storage of a page whose ids are distinct, every item
    has a row under its id: a row unknown before is created from the
    item, for the feed [mpId]; on the upsert path a known row carries
    the item's title and publish time. *)
Theorem store_page_lookup E mpId items w w' it :
  store_page E mpId items w = (Return tt, w') ->
  NoDup (map item_id items) ->
  it ∈ items ->
  exists r,
    articles w' !! item_id it = Some r
    /\ (articles w !! item_id it = None ->
        r = {| article_id := item_id it;
               article_mpId := mpId;
               article_picUrl := item_picUrl it;
               article_publishTime := item_publishTime it;
               article_title := item_title it |})
    /\ (String.eqb (database_type E) "sqlite" = true ->
        article_title r = item_title it
        /\ article_publishTime r = item_publishTime it).
Proof.
  intros Hs Hnd Hin. apply store_page_run in Hs. destruct Hs as (Hs & _).
  rewrite Hs, stored_page_lookup, (cells_single _ items it _ Hnd Hin).
  eexists. split; [reflexivity|].
  destruct (String.eqb (database_type E) "sqlite"); split.
  - intros ->. reflexivity.
  - intros _. destruct (articles w !! item_id it); split; reflexivity.
  - intros ->. reflexivity.
  - discriminate.
Qed.

(** The row of [item2] after the page [item1; item2]. *)
Lemma store_page_lookup_witness :
  exists r,
    articles (store_page (env_const (HttpOk [])) "MP_A" [item1; item2]
                world0).2 !! "a2" = Some r
    /\ article_title r = "t2".
Proof.
  assert (Hnd : NoDup (map item_id [item1; item2])).
  { apply (bool_decide_unpack _). vm_compute. exact I. }
  destruct (store_page_lookup (env_const (HttpOk [])) "MP_A" [item1; item2]
              world0
              (store_page (env_const (HttpOk [])) "MP_A" [item1; item2]
                 world0).2
              item2)
    as (r & Hr & _ & Ht); [vm_compute; reflexivity | exact Hnd | |].
  - right. left.
  - exists r. split; [exact Hr | exact (proj1 (Ht eq_refl))].
Defined.

(** ** The refresher: the feed table, the empty page, the unknown feed *)

Lemma update_feed_row_frame k s h rows rows' :
  update_feed_row k s h rows = Some rows' ->
  map feed_id rows' = map feed_id rows
  /\ map feed_status rows' = map feed_status rows
  /\ forall k', k' <> k -> find_feed k' rows' = find_feed k' rows.
Proof.
  revert rows'. induction rows as [|f rest IH]; intros rows'; simpl;
    [discriminate|].
  destruct (String.eqb_spec (feed_id f) k) as [Hk|Hk].
  - intros [= <-]. simpl. repeat split.
    intros k' Hne. destruct (String.eqb_spec (feed_id f) k'); [congruence|].
    reflexivity.
  - destruct (update_feed_row k s h rest) as [rest'|]; [|discriminate].
    intros [= <-]. destruct (IH rest' eq_refl) as (H1 & H2 & H3).
    simpl. rewrite H1, H2. repeat split.
    intros k' Hne. rewrite (H3 k' Hne). reflexivity.
Qed.

Lemma update_feed_row_found k s h rows f :
  find_feed k rows = Some f ->
  exists rows', update_feed_row k s h rows = Some rows'.
Proof.
  induction rows as [|g rest IH]; simpl; [discriminate|].
  destruct (String.eqb (feed_id g) k); [eauto|].
  intros H. destruct (IH H) as (rest' & ->). simpl. eauto.
Qed.

Lemma update_feed_row_missing k s h rows :
  find_feed k rows = None -> update_feed_row k s h rows = None.
Proof.
  induction rows as [|g rest IH]; simpl; [reflexivity|].
  destruct (String.eqb (feed_id g) k); [discriminate|].
  intros H. rewrite (IH H). reflexivity.
Qed.

Lemma feed_update_frame E k s h w o w' :
  feed_update E k s h w = (o, w') ->
  map feed_id (feeds w') = map feed_id (feeds w)
  /\ map feed_status (feeds w') = map feed_status (feeds w)
  /\ (forall k', k' <> k -> find_feed k' (feeds w') = find_feed k' (feeds w))
  /\ articles w' = articles w.
Proof.
  unfold feed_update. unfold_monad. simpl.
  destruct (db_fault E (tick w)); simpl.
  - intros [= <- <-]. repeat split.
  - destruct (update_feed_row k s h (feeds w)) as [rows'|] eqn:Hu;
      intros [= <- <-]; simpl; [|repeat split].
    apply update_feed_row_frame in Hu. destruct Hu as (H1 & H2 & H3).
    repeat split; assumption.
Qed.

Lemma refresh_feed_frame statusMap defaultCount E mpId page_ w o w' :
  refreshMpArticlesAndUpdateFeed statusMap defaultCount E mpId page_ w = (o, w') ->
  map feed_id (feeds w') = map feed_id (feeds w)
  /\ map feed_status (feeds w') = map feed_status (feeds w)
  /\ forall k, k <> mpId -> find_feed k (feeds w') = find_feed k (feeds w).
Proof.
  rewrite refresh_run, refresh_try_unfold.
  destruct (getMpArticles statusMap E mpId page_ 3 w) as [[arts|e] w1] eqn:Hg;
    apply getMpArticles_keeps in Hg; destruct Hg as (Hf1 & _);
    [|intros [= <- <-]; rewrite Hf1; repeat split].
  destruct (store_page E mpId arts w1) as [[[]|e] w2] eqn:Hs;
    apply store_page_keeps in Hs; destruct Hs as (Hf2 & _);
    [|intros [= <- <-]; rewrite Hf2, Hf1; repeat split].
  cbv zeta.
  destruct (feed_update E mpId _ _ _) as [[[]|e] w3] eqn:Hu;
    apply feed_update_frame in Hu; destruct Hu as (H1 & H2 & H3 & _);
    simpl in *; rewrite Hf2, Hf1 in *; intros [= <- <-];
    repeat split; assumption.
Qed.

(** X10. A refresh changes the row of no other feed, and adds, removes,
    reorders, enables or disables no feed, whatever its outcome. *)
Theorem refresh_touches_one_feed statusMap defaultCount E mpId page_ w :
  let w' :=
    (refreshMpArticlesAndUpdateFeed statusMap defaultCount E mpId page_ w).2 in
  map feed_id (feeds w') = map feed_id (feeds w)
  /\ map feed_status (feeds w') = map feed_status (feeds w)
  /\ forall k, k <> mpId -> find_feed k (feeds w') = find_feed k (feeds w).
Proof.
  cbv zeta.
  destruct (refreshMpArticlesAndUpdateFeed statusMap defaultCount E mpId page_ w)
    as [o w'] eqn:Hrun.
  exact (refresh_feed_frame _ _ _ _ _ _ _ _ Hrun).
Qed.

(** The refresh of [MP_A] and the row of [MP_B]. *)
Lemma refresh_touches_one_feed_witness :
  find_feed "MP_B"
    (feeds (refreshMpArticlesAndUpdateFeed statusMap0 15
              (env_const (HttpOk [item1; item2])) "MP_A" 1 world0).2)
  = Some feedB.
Proof.
  assert (Hne : "MP_B" <> "MP_A") by discriminate.
  exact (proj2 (proj2 (refresh_touches_one_feed statusMap0 15
                         (env_const (HttpOk [item1; item2])) "MP_A" 1 world0))
           "MP_B" Hne).
Defined.

(** X11. When the upstream answers with an empty page (and the feed row
    exists, the database answers, the page size is positive), the
    refresh succeeds with zero articles, writes no article, and marks
    the feed's history as complete. *)
Theorem empty_page_ends_history statusMap defaultCount E mpId page_ w w1 f :
  getMpArticles statusMap E mpId page_ 3 w = (Return [], w1) ->
  db_fault E (S (tick w1)) = false ->
  find_feed mpId (feeds w) = Some f ->
  0 < defaultCount ->
  exists w' f',
    refreshMpArticlesAndUpdateFeed statusMap defaultCount E mpId page_ w
    = (Return (refresh_succeeded mpId 0 0), w')
    /\ articles w' = articles w
    /\ find_feed mpId (feeds w') = Some f'
    /\ feed_hasHistory f' = 0
    /\ feed_syncTime f' = Date_now E (tick w1) / 1000.
Proof.
  intros Hg Hdb Hf Hdc.
  rewrite refresh_run, refresh_try_unfold, Hg.
  apply getMpArticles_keeps in Hg. destruct Hg as (Hf1 & Ha1 & _).
  change (store_page E mpId [] w1) with (Return tt, w1).
  cbv iota zeta. change (Z.of_nat (length (@nil ArticleItem))) with 0.
  destruct (Z.ltb_spec 0 defaultCount); [|lia].
  rewrite <- Hf1 in Hf.
  destruct (update_feed_row_found mpId (Date_now E (tick w1) / 1000) 0
              (feeds w1) f Hf) as (rows' & Hu).
  assert (Hrun : feed_update E mpId (Date_now E (tick w1) / 1000) 0
                   (set_tick (S (tick w1)) w1)
                 = (Return tt, set_feeds rows'
                                 (set_tick (S (S (tick w1))) w1))).
  { unfold feed_update. unfold_monad. simpl. rewrite Hdb. simpl.
    rewrite Hu. reflexivity. }
  rewrite Hrun.
  destruct (update_feed_row_find _ _ _ _ _ Hu) as (f' & Hf' & Hs & Hh).
  exists (set_feeds rows' (set_tick (S (S (tick w1))) w1)), f'.
  repeat split; assumption.
Qed.

(** An upstream with empty pages, for [MP_A]. *)
Lemma empty_page_ends_history_witness :
  exists w' f',
    refreshMpArticlesAndUpdateFeed statusMap0 15 (env_const (HttpOk []))
      "MP_A" 1 world0
    = (Return (refresh_succeeded "MP_A" 0 0), w')
    /\ articles w' = articles world0
    /\ find_feed "MP_A" (feeds w') = Some f'
    /\ feed_hasHistory f' = 0.
Proof.
  assert (Hdc : 0 < 15) by lia.
  destruct (empty_page_ends_history statusMap0 15 (env_const (HttpOk []))
              "MP_A" 1 world0
              (getMpArticles statusMap0 (env_const (HttpOk [])) "MP_A" 1 3
                 world0).2
              feedA)
    as (w' & f' & H1 & H2 & H3 & H4 & _);
    [vm_compute; reflexivity | reflexivity | reflexivity | exact Hdc |].
  exists w', f'. repeat split; assumption.
Defined.

(** X12. For an id with no feed row, the refresh still stores the page
    it fetched and then reports the failure result: the update of the
    missing row throws after the articles are written. *)
Theorem unknown_feed_stores_then_fails statusMap defaultCount E mpId page_
    w arts w1 w2 :
  getMpArticles statusMap E mpId page_ 3 w = (Return arts, w1) ->
  store_page E mpId arts w1 = (Return tt, w2) ->
  find_feed mpId (feeds w) = None ->
  exists w',
    refreshMpArticlesAndUpdateFeed statusMap defaultCount E mpId page_ w
    = (Return (refresh_failed mpId), w')
    /\ articles w' = stored_page E mpId arts (articles w)
    /\ feeds w' = feeds w.
Proof.
  intros Hg Hs Hnone.
  rewrite refresh_run, refresh_try_unfold, Hg, Hs.
  apply getMpArticles_keeps in Hg. destruct Hg as (Hf1 & Ha1 & _).
  apply store_page_run in Hs. destruct Hs as (Ha2 & Hf2 & _).
  cbv zeta.
  assert (Hrun : forall s h, exists e w3,
             feed_update E mpId s h (set_tick (S (tick w2)) w2) = (Throw e, w3)
             /\ articles w3 = articles w2 /\ feeds w3 = feeds w2).
  { intros s h. unfold feed_update. unfold_monad. simpl.
    destruct (db_fault E (S (tick w2))); simpl; [eauto 6|].
    rewrite update_feed_row_missing by congruence. eauto 6. }
  destruct (Hrun (Date_now E (tick w2) / 1000)
              (if Z.of_nat (length arts) <? defaultCount then 0 else 1))
    as (e & w3 & -> & Ha3 & Hf3).
  exists w3. split; [reflexivity|]. split; congruence.
Qed.

(** A page for an id that is not in the feed table. *)
Lemma unknown_feed_stores_then_fails_witness :
  exists w',
    refreshMpArticlesAndUpdateFeed statusMap0 15
      (env_const (HttpOk [item1; item2])) "MP_X" 1 world0
    = (Return (refresh_failed "MP_X"), w')
    /\ articles w'
       = stored_page (env_const (HttpOk [item1; item2])) "MP_X"
           [item1; item2] (articles world0)
    /\ feeds w' = feeds world0.
Proof.
  apply (unknown_feed_stores_then_fails statusMap0 15
           (env_const (HttpOk [item1; item2])) "MP_X" 1 world0
           [item1; item2]
           (getMpArticles statusMap0 (env_const (HttpOk [item1; item2]))
              "MP_X" 1 3 world0).2
           (store_page (env_const (HttpOk [item1; item2])) "MP_X"
              [item1; item2]
              (getMpArticles statusMap0 (env_const (HttpOk [item1; item2]))
                 "MP_X" 1 3 world0).2).2);
    vm_compute; reflexivity.
Defined.

(** ** The history crawler: termination, iteration, the first page *)

Section CrawlerRuns.

Variable statusMap : StatusMap.
Variable defaultCount : Z.
Variable E : Env.

Lemma loop_head_measure mpId i w :
  let r := loop_head mpId i w in
  (crawl_measure r.1 < 2 * i + 1)%nat
  /\ (is_finished r.1 = true ->
      inProgressHistoryMp r.2 = {| id := ""; page := 1 |}).
Proof.
  destruct i as [|i]; simpl.
  - split; [lia | reflexivity].
  - destruct (negb _); simpl; split; try lia; try reflexivity; discriminate.
Qed.

(** A resumption brings a suspended crawl closer to its end, and the
    call ends only through its [finally] block. *)
Lemma resume_measure mpId pc w :
  is_finished pc = false ->
  let r := resume statusMap defaultCount E mpId pc w in
  (crawl_measure r.1 < crawl_measure pc)%nat
  /\ (is_finished r.1 = true ->
      inProgressHistoryMp r.2 = {| id := ""; page := 1 |}).
Proof.
  intros Hpc.
  destruct pc as [| |i p|i|o]; try discriminate Hpc; cbv zeta; unfold resume.
  - destruct (feed_findFirstOrThrow E mpId w) as [[f|e] w'].
    + destruct (feed_hasHistory f =? 0); simpl; split;
        try lia; try reflexivity; discriminate.
    + simpl. split; [lia | reflexivity].
  - destruct (article_count E mpId w) as [[n|e] w'].
    + pose proof (loop_head_measure mpId 1000
                    (set_inProgressHistoryMp
                       {| id := id (inProgressHistoryMp w');
                          page := Math_ceil_div n defaultCount |} w')) as H.
      cbv zeta in H. destruct H as [H1 H2]. split; [|exact H2].
      change (crawl_measure AwaitCount) with 2001%nat. lia.
    + simpl. split; [lia | reflexivity].
  - destruct (refreshMpArticlesAndUpdateFeed statusMap defaultCount E mpId p w)
      as [[r|e] w'].
    + destruct (default 1 (hasHistory r) <? 1); simpl; split;
        try lia; try reflexivity; discriminate.
    + simpl. split; [lia | reflexivity].
  - pose proof (loop_head_measure mpId i w) as H. cbv zeta in H.
    destruct H as [H1 H2]. split; [|exact H2]. simpl. lia.
Qed.

Lemma resume_n_terminates n mpId pc w :
  (crawl_measure pc <= n)%nat ->
  let run := resume_n statusMap defaultCount E n mpId pc w in
  is_finished run.1 = true
  /\ (is_finished pc = false ->
      inProgressHistoryMp run.2 = {| id := ""; page := 1 |}).
Proof.
  revert pc w. induction n as [|n IH]; intros pc w Hm; cbv zeta.
  - destruct pc; simpl in Hm; try lia. simpl. split; [reflexivity | discriminate].
  - destruct (is_finished pc) eqn:Hpc.
    + destruct pc; try discriminate Hpc. rewrite resume_n_finished.
      split; [reflexivity | discriminate].
    + pose proof (resume_measure mpId pc w Hpc) as Hstep. cbv zeta in Hstep.
      simpl. destruct (resume statusMap defaultCount E mpId pc w) as [pc1 w1].
      simpl in Hstep. destruct Hstep as [Hlt Hfin].
      destruct (IH pc1 w1 ltac:(lia)) as [H1 H2]. split; [exact H1|].
      intros _. destruct (is_finished pc1) eqn:Hpc1.
      * destruct pc1; try discriminate Hpc1. rewrite resume_n_finished.
        simpl. apply Hfin. reflexivity.
      * apply H2. reflexivity.
Qed.

End CrawlerRuns.

(** X13. A history crawl always ends: from its first [await] within
    2002 resumptions (its loop makes at most 1000 fetches), and from any
    other suspension point within the measure of that point; when it
    has ended, the shared record is back at [{id: '', page: 1}]. *)
Theorem crawl_terminates statusMap defaultCount E mpId w :
  let run := resume_n statusMap defaultCount E 2002 mpId AwaitFindFeed w in
  is_finished run.1 = true
  /\ inProgressHistoryMp run.2 = {| id := ""; page := 1 |}
  /\ forall pc w0,
       is_finished pc = false ->
       let run0 :=
         resume_n statusMap defaultCount E (crawl_measure pc) mpId pc w0 in
       is_finished run0.1 = true
       /\ inProgressHistoryMp run0.2 = {| id := ""; page := 1 |}.
Proof.
  assert (Hgen : forall pc w0,
            is_finished pc = false ->
            let run0 :=
              resume_n statusMap defaultCount E (crawl_measure pc) mpId pc w0 in
            is_finished run0.1 = true
            /\ inProgressHistoryMp run0.2 = {| id := ""; page := 1 |}).
  { intros pc w0 Hpc.
    destruct (resume_n_terminates statusMap defaultCount E (crawl_measure pc)
                mpId pc w0 (Nat.le_refl _)) as [H1 H2].
    cbv zeta. split; [exact H1 | exact (H2 Hpc)]. }
  cbv zeta. destruct (Hgen AwaitFindFeed w eq_refl) as [H1 H2].
  split; [exact H1|]. split; [exact H2 | exact Hgen].
Qed.

(** The crawl of [MP_A] against an upstream with a short first page. *)
Lemma crawl_terminates_witness :
  is_finished
    (resume_n statusMap0 15 (env_const (HttpOk [item1; item2])) 2002 "MP_A"
       AwaitFindFeed (getHistoryMpArticles "MP_A" world0).2).1 = true.
Proof.
  exact (proj1 (crawl_terminates statusMap0 15
                  (env_const (HttpOk [item1; item2])) "MP_A"
                  (getHistoryMpArticles "MP_A" world0).2)).
Defined.

(** X14. One iteration of an undisturbed crawl: when the refresh of the
    page in flight reports more history, the record's page goes up by
    one and, after the delay, the next call of the refresher asks for
    that page; when it reports none, the call ends and the record is
    reset. *)
Theorem crawl_iteration statusMap defaultCount E mpId i p w r w1 :
  refreshMpArticlesAndUpdateFeed statusMap defaultCount E mpId p w
  = (Return r, w1) ->
  id (inProgressHistoryMp w) = mpId ->
  (hasHistory r = Some 0 ->
   resume statusMap defaultCount E mpId (AwaitRefresh (S i) p) w
   = (Finished (Return tt),
      set_inProgressHistoryMp {| id := ""; page := 1 |} w1))
  /\ (hasHistory r = Some 1 ->
      resume_n statusMap defaultCount E 2 mpId (AwaitRefresh (S i) p) w
      = (AwaitRefresh i (page (inProgressHistoryMp w) + 1),
         set_inProgressHistoryMp
           {| id := mpId; page := page (inProgressHistoryMp w) + 1 |} w1)).
Proof.
  intros Hrun Hid.
  pose proof (refresh_keeps _ _ _ _ _ _ _ _ Hrun) as (Hrec & _).
  split; intros Hh.
  - unfold resume. rewrite Hrun, Hh. reflexivity.
  - assert (H1 : resume statusMap defaultCount E mpId (AwaitRefresh (S i) p) w
                 = (AwaitDelay (S i),
                    set_inProgressHistoryMp
                      {| id := mpId; page := page (inProgressHistoryMp w) + 1 |}
                      w1)).
    { unfold resume. rewrite Hrun, Hh, Hrec, Hid. reflexivity. }
    assert (H2 : resume statusMap defaultCount E mpId (AwaitDelay (S i))
                   (set_inProgressHistoryMp
                      {| id := mpId; page := page (inProgressHistoryMp w) + 1 |}
                      w1)
                 = (AwaitRefresh i (page (inProgressHistoryMp w) + 1),
                    set_inProgressHistoryMp
                      {| id := mpId; page := page (inProgressHistoryMp w) + 1 |}
                      w1)).
    { unfold resume, loop_head.
      cbn [set_inProgressHistoryMp inProgressHistoryMp id page].
      rewrite String.eqb_refl. reflexivity. }
    cbn [resume_n]. rewrite H1, H2. reflexivity.
Qed.

(** A full page (page size 2) at page 3 of the crawl of [MP_A]. *)
Lemma crawl_iteration_witness :
  (resume_n statusMap0 2 (env_const (HttpOk [item1; item2])) 2 "MP_A"
     (AwaitRefresh 990 3) world_crawling_A).1
  = AwaitRefresh 989 4.
Proof.
  destruct (crawl_iteration statusMap0 2 (env_const (HttpOk [item1; item2]))
              "MP_A" 989 3 world_crawling_A
              (refresh_succeeded "MP_A" 1 2)
              (refreshMpArticlesAndUpdateFeed statusMap0 2
                 (env_const (HttpOk [item1; item2])) "MP_A" 3
                 world_crawling_A).2)
    as [_ H]; [vm_compute; reflexivity | reflexivity |].
  rewrite (H eq_refl). reflexivity.
Defined.

(** X15. A crawl started for a feed whose history is complete, or for
    an id with no feed row, ends at its first resumption without a
    fetch: normally in the first case, with the not-found error in the
    second; the record is reset and only the one database read was
    made. *)
Theorem crawl_nothing_to_do statusMap defaultCount E mpId w :
  mpId <> "" ->
  id (inProgressHistoryMp w) <> mpId ->
  db_fault E (tick w) = false ->
  (forall f, find_feed mpId (feeds w) = Some f -> feed_hasHistory f = 0) ->
  let start := getHistoryMpArticles mpId w in
  start = (AwaitFindFeed,
           set_inProgressHistoryMp {| id := mpId; page := 1 |} w)
  /\ resume statusMap defaultCount E mpId start.1 start.2
     = (Finished (match find_feed mpId (feeds w) with
                  | Some _ => Return tt
                  | None => Throw RecordNotFound
                  end),
        set_inProgressHistoryMp {| id := ""; page := 1 |}
          (set_tick (S (tick w)) w)).
Proof.
  intros Hne Hid Hdb Hdone start.
  assert (Hstart : start = (AwaitFindFeed,
            set_inProgressHistoryMp {| id := mpId; page := 1 |} w)).
  { subst start. unfold getHistoryMpArticles.
    destruct (String.eqb_spec (id (inProgressHistoryMp w)) mpId);
      [contradiction|]. simpl.
    destruct (String.eqb_spec mpId ""); [contradiction | reflexivity]. }
  rewrite Hstart. split; [reflexivity|]. cbn [fst snd]. unfold resume.
  rewrite feed_findFirstOrThrow_run by exact Hdb.
  cbn [feeds set_inProgressHistoryMp].
  destruct (find_feed mpId (feeds w)) as [f|] eqn:Hf.
  - rewrite (Hdone f eq_refl). reflexivity.
  - reflexivity.
Qed.

(** A crawl asked for an id that has no feed row. *)
Lemma crawl_nothing_to_do_witness :
  resume statusMap0 15 (env_const (HttpOk [item1])) "MP_X" AwaitFindFeed
    (getHistoryMpArticles "MP_X" world0).2
  = (Finished (Throw RecordNotFound),
     set_inProgressHistoryMp {| id := ""; page := 1 |} (set_tick 1 world0)).
Proof.
  assert (Hne : "MP_X" <> "") by discriminate.
  assert (Hid : id (inProgressHistoryMp world0) <> "MP_X") by discriminate.
  exact (proj2 (crawl_nothing_to_do statusMap0 15 (env_const (HttpOk [item1]))
                  "MP_X" world0 Hne Hid eq_refl
                  ltac:(intros f Hf; discriminate Hf))).
Defined.

(** X16. The crawl resumes past the pages it already has: with [total]
    stored articles of the feed and a positive page size, the first
    page it asks for is the ceiling of [total / defaultCount], the
    least [p] with [total <= p * defaultCount]. *)
Theorem crawl_start_page statusMap defaultCount E mpId w :
  0 < defaultCount ->
  db_fault E (tick w) = false ->
  id (inProgressHistoryMp w) = mpId ->
  let total :=
    Z.of_nat (size (filter
      (fun kv : string * Article => article_mpId kv.2 = mpId) (articles w))) in
  exists p,
    resume statusMap defaultCount E mpId AwaitCount w
    = (AwaitRefresh 999 p,
       set_inProgressHistoryMp {| id := mpId; page := p |}
         (set_tick (S (tick w)) w))
    /\ (p - 1) * defaultCount < total <= p * defaultCount.
Proof.
  intros Hdc Hdb Hid total.
  exists (Math_ceil_div total defaultCount). split.
  - unfold resume. rewrite article_count_run by exact Hdb. fold total.
    unfold loop_head.
    cbn [tick set_tick set_inProgressHistoryMp inProgressHistoryMp id page].
    rewrite Hid, String.eqb_refl. reflexivity.
  - apply Math_ceil_div_spec. exact Hdc.
Qed.

(** Two stored articles of [MP_A] and a page size of 2: page 1. *)
Lemma crawl_start_page_witness :
  exists p,
    resume statusMap0 2 (env_const (HttpOk [])) "MP_A" AwaitCount
      (set_inProgressHistoryMp {| id := "MP_A"; page := 1 |}
         (store_page (env_const (HttpOk [])) "MP_A" [item1; item2] world0).2)
    = (AwaitRefresh 999 p,
       set_inProgressHistoryMp {| id := "MP_A"; page := p |}
         (set_tick 2
            (set_inProgressHistoryMp {| id := "MP_A"; page := 1 |}
               (store_page (env_const (HttpOk [])) "MP_A" [item1; item2]
                  world0).2)))
    /\ p = 1.
Proof.
  assert (Hdc : 0 < 2) by lia.
  destruct (crawl_start_page statusMap0 2 (env_const (HttpOk [])) "MP_A"
              (set_inProgressHistoryMp {| id := "MP_A"; page := 1 |}
                 (store_page (env_const (HttpOk [])) "MP_A" [item1; item2]
                    world0).2)
              Hdc eq_refl eq_refl) as (p & Hrun & Hp).
  exists p. split; [exact Hrun|].
  change (Z.of_nat (size (filter
            (fun kv : string * Article => article_mpId kv.2 = "MP_A")
            (articles (set_inProgressHistoryMp {| id := "MP_A"; page := 1 |}
               (store_page (env_const (HttpOk [])) "MP_A" [item1; item2]
                  world0).2))))) with 2 in Hp.
  lia.
Defined.

(** ** The bulk refresh: the flag, the accounting, convergence *)

Lemma NoDup_Set_add x s : NoDup s -> NoDup (Set_add x s).
Proof.
  intros H. unfold Set_add. case_bool_decide as Hx; [exact H|].
  apply NoDup_app. split; [exact H|]. split.
  - intros y Hy Hy'. apply list_elem_of_singleton in Hy'. subst y.
    contradiction.
  - apply NoDup_singleton.
Qed.

Section BulkRuns.

Variable statusMap : StatusMap.
Variable defaultCount : Z.
Variable E : Env.

Lemma round_feeds_keeps feeds_ acc w o w' :
  round_feeds statusMap defaultCount E feeds_ acc w = (o, w') ->
  keeps_service_state w w'.
Proof.
  revert acc w. induction feeds_ as [|y rest IH]; intros acc w.
  - intros [= <- <-]. apply keeps_service_state_refl.
  - simpl. unfold bind at 1. unfold try_catch, bind at 1.
    destruct (refreshMpArticlesAndUpdateFeed statusMap defaultCount E y 1 w)
      as [[r|e] w1] eqn:Hr; apply refresh_keeps in Hr;
      unfold ret at 1; unfold bind at 1; unfold sleep, ret at 1;
      intros H; apply IH in H;
      eapply keeps_service_state_trans; eassumption.
Qed.

Lemma round_feeds_NoDup feeds_ acc w failed w' :
  round_feeds statusMap defaultCount E feeds_ acc w = (Return failed, w') ->
  NoDup acc -> NoDup failed.
Proof.
  revert acc w. induction feeds_ as [|y rest IH]; intros acc w.
  - intros [= <- <-]. auto.
  - simpl. unfold bind at 1. unfold try_catch, bind at 1.
    destruct (refreshMpArticlesAndUpdateFeed statusMap defaultCount E y 1 w)
      as [[r|e] w1];
      unfold ret at 1; unfold bind at 1; unfold sleep, ret at 1;
      intros H Hnd; apply IH in H; auto using NoDup_Set_add.
    destruct (round_failed r); auto using NoDup_Set_add.
Qed.

(** The failure set of a round is drawn from the round's feeds. *)
Lemma round_feeds_subset feeds_ w failed w' :
  round_feeds statusMap defaultCount E feeds_ [] w = (Return failed, w') ->
  forall x, x ∈ failed -> x ∈ feeds_.
Proof.
  intros Hrun x Hx.
  destruct (round_feeds_spec statusMap defaultCount E feeds_ [] w)
    as (failed' & w'' & Hrun' & Hmem).
  rewrite Hrun in Hrun'. injection Hrun' as <- <-.
  apply Hmem in Hx. destruct Hx as [Hx | (r & Hin & _)]; [inversion Hx|].
  rewrite <- (round_calls_feeds statusMap defaultCount E feeds_ w).
  apply (list_elem_of_fmap_2 fst) in Hin. exact Hin.
Qed.

(** What the round loop keeps: the flag and the crawl record, a failure
    list without repeats, drawn from the feeds it started with. *)
Lemma rounds_invariant budget st w st' w' :
  rounds statusMap defaultCount E budget st w = (Return st', w') ->
  keeps_service_state w w'
  /\ (NoDup (finalFailedFeeds st) -> NoDup (finalFailedFeeds st'))
  /\ (forall x, x ∈ finalFailedFeeds st' ->
                x ∈ feedsToUpdate st \/ x ∈ finalFailedFeeds st).
Proof.
  revert st w. induction budget as [|n IH]; intros st w.
  - intros [= <- <-]. split; [apply keeps_service_state_refl|]. auto.
  - destruct (rounds_unfold statusMap defaultCount E n st w)
      as (failed & w1 & Hround & Hloop).
    rewrite Hloop.
    pose proof (round_feeds_keeps _ _ _ _ _ Hround) as Hk.
    pose proof (round_feeds_NoDup _ _ _ _ _ Hround (NoDup_nil_2)) as Hnd.
    pose proof (round_feeds_subset _ _ _ _ Hround) as Hsub.
    destruct failed as [|x failed].
    + intros [= <- <-]. split; [exact Hk|]. simpl.
      split; [intros _; apply NoDup_nil_2 | intros y Hy; inversion Hy].
    + intros H. apply IH in H. simpl in H. destruct H as (Hk' & Hnd' & Hsub').
      split; [eapply keeps_service_state_trans; eassumption|].
      split; [intros _; apply Hnd'; exact Hnd|].
      intros y Hy. left. apply Hsub.
      destruct (Hsub' y Hy) as [H|H]; exact H.
Qed.

Lemma feed_findMany_run (where_ : Feed -> bool) w :
  feed_findMany E where_ w =
  (if db_fault E (tick w) then Throw DatabaseFailure
   else Return (List.filter where_ (feeds w)),
   set_tick (S (tick w)) w).
Proof.
  unfold feed_findMany. unfold_monad. simpl.
  destruct (db_fault E (tick w)); reflexivity.
Qed.

(** The [try] block once the listing has answered. *)
Lemma refreshAll_try_run w :
  db_fault E (tick w) = false ->
  let w1 := set_tick (S (tick w)) w in
  refreshAll_try statusMap defaultCount E w =
  match enabled_ids statusMap w with
  | [] => (Return {| all_message := "没有需要更新的启用状态的订阅源。";
                     all_successCount := 0;
                     all_errorCount := 0;
                     all_failedFeeds := [] |}, w1)
  | _ :: _ =>
      match rounds statusMap defaultCount E maxRounds
              {| round := 1; feedsToUpdate := enabled_ids statusMap w;
                 finalFailedFeeds := [] |} w1 with
      | (Return st, w2) =>
          (Return {| all_message := "更新流程结束";
                     all_successCount :=
                       Z.of_nat (length (enabled_ids statusMap w))
                       - Z.of_nat (length (finalFailedFeeds st));
                     all_errorCount := Z.of_nat (length (finalFailedFeeds st));
                     all_failedFeeds := finalFailedFeeds st |}, w2)
      | (Throw e, w2) => (Throw e, w2)
      end
  end.
Proof.
  intros Hdb w1. unfold refreshAll_try. unfold bind at 1.
  rewrite feed_findMany_run, Hdb. unfold enabled_ids.
  change (feeds (set_tick (S (tick w)) w)) with (feeds w).
  destruct (List.filter (enabled_feed statusMap) (feeds w)) as [|f rest] eqn:Hf;
    [reflexivity|].
  change (length (f :: rest) =? 0)%nat with false. cbv iota.
  unfold bind at 1. fold w1.
  destruct (rounds statusMap defaultCount E maxRounds _ w1) as [[st|e] w2];
    [|reflexivity].
  unfold ret. rewrite !length_map. reflexivity.
Qed.

(** The whole call from a store whose flag is clear. *)
Lemma refreshAll_run w :
  isRefreshAllMpArticlesRunning w = false ->
  refreshAllMpArticlesAndUpdateFeed statusMap defaultCount E w =
  let w0 := set_isRefreshAllMpArticlesRunning true w in
  match refreshAll_try statusMap defaultCount E w0 with
  | (Return r, w1) => (Return r, set_isRefreshAllMpArticlesRunning false w1)
  | (Throw e, w1) =>
      let '(o, w2) := refreshAll_catch statusMap E e w1 in
      (o, set_isRefreshAllMpArticlesRunning false w2)
  end.
Proof.
  intros Hflag. unfold refreshAllMpArticlesAndUpdateFeed.
  unfold bind at 1. unfold gets. rewrite Hflag.
  unfold bind at 1. unfold modify at 1. unfold try_finally, try_catch.
  cbv zeta.
  destruct (refreshAll_try statusMap defaultCount E _) as [[r|e] w1];
    [reflexivity|].
  destruct (refreshAll_catch statusMap E e w1); reflexivity.
Qed.

End BulkRuns.

(** X17. A bulk refresh that found the flag clear leaves it clear,
    whatever happened in between, exceptions included; and while its
    body runs nothing clears the flag or writes the crawl record: only
    the [finally] block does. *)
Theorem refreshAll_releases_flag statusMap defaultCount E w :
  isRefreshAllMpArticlesRunning w = false ->
  isRefreshAllMpArticlesRunning
    (refreshAllMpArticlesAndUpdateFeed statusMap defaultCount E w).2 = false
  /\ inProgressHistoryMp
       (refreshAllMpArticlesAndUpdateFeed statusMap defaultCount E w).2
     = inProgressHistoryMp w
  /\ forall w0 o w1,
       refreshAll_try statusMap defaultCount E w0 = (o, w1) ->
       isRefreshAllMpArticlesRunning w1 = isRefreshAllMpArticlesRunning w0
       /\ inProgressHistoryMp w1 = inProgressHistoryMp w0.
Proof.
  intros Hflag.
  assert (Htry : forall w0 o w1,
            refreshAll_try statusMap defaultCount E w0 = (o, w1) ->
            isRefreshAllMpArticlesRunning w1 = isRefreshAllMpArticlesRunning w0
            /\ inProgressHistoryMp w1 = inProgressHistoryMp w0).
  { intros w0 o w1. unfold refreshAll_try. unfold bind at 1.
    rewrite feed_findMany_run.
    destruct (db_fault E (tick w0)); [intros [= <- <-]; split; reflexivity|].
    destruct (length _ =? 0)%nat; [intros [= <- <-]; split; reflexivity|].
    unfold bind at 1.
    destruct (rounds statusMap defaultCount E maxRounds _ _) as [[st|e] w2] eqn:Hr.
    - apply rounds_invariant in Hr. destruct Hr as ((H1 & H2 & _) & _).
      intros [= <- <-]. simpl in H1, H2. auto.
    - match type of Hr with
      | rounds ?a ?b ?c ?d ?st ?w = _ =>
          destruct (rounds_exit a b c d st w) as (st' & w' & Hex & _)
      end.
      rewrite Hex in Hr. discriminate Hr. }
  split; [|split; [|exact Htry]].
  - rewrite (refreshAll_run statusMap defaultCount E w Hflag). cbv zeta.
    destruct (refreshAll_try statusMap defaultCount E _) as [[r|e] w1];
      [reflexivity|].
    destruct (refreshAll_catch statusMap E e w1); reflexivity.
  - rewrite (refreshAll_run statusMap defaultCount E w Hflag). cbv zeta.
    destruct (refreshAll_try statusMap defaultCount E _) as [[r|e] w1] eqn:Ht;
      apply Htry in Ht; destruct Ht as [_ Hrec]; [exact Hrec|].
    unfold refreshAll_catch. unfold bind at 1. rewrite feed_findMany_run.
    destruct (db_fault E (tick w1)); simpl; exact Hrec.
Qed.

(** The bulk refresh of [world0], whose flag is clear. *)
Lemma refreshAll_releases_flag_witness :
  isRefreshAllMpArticlesRunning
    (refreshAllMpArticlesAndUpdateFeed statusMap0 15 env_A_only world0).2
  = false.
Proof.
  exact (proj1 (refreshAll_releases_flag statusMap0 15 env_A_only world0
                  eq_refl)).
Defined.

(** X18. When the listing of the enabled feeds answers, a bulk refresh
    returns a result whose counts add up: [successCount + errorCount] is
    the number of enabled feeds, [successCount] is not negative,
    [errorCount] is the length of [failedFeeds], and [failedFeeds] has
    no repeats and holds ids of enabled feeds only. *)
Theorem refreshAll_accounting statusMap defaultCount E w :
  isRefreshAllMpArticlesRunning w = false ->
  db_fault E (tick w) = false ->
  exists r w',
    refreshAllMpArticlesAndUpdateFeed statusMap defaultCount E w
    = (Return r, w')
    /\ all_successCount r + all_errorCount r
       = Z.of_nat (length (enabled_ids statusMap w))
    /\ 0 <= all_successCount r
    /\ all_errorCount r = Z.of_nat (length (all_failedFeeds r))
    /\ NoDup (all_failedFeeds r)
    /\ forall x, x ∈ all_failedFeeds r -> x ∈ enabled_ids statusMap w.
Proof.
  intros Hflag Hdb.
  rewrite (refreshAll_run statusMap defaultCount E w Hflag). cbv zeta.
  rewrite refreshAll_try_run by exact Hdb. cbv zeta.
  change (enabled_ids statusMap (set_isRefreshAllMpArticlesRunning true w))
    with (enabled_ids statusMap w).
  destruct (enabled_ids statusMap w) as [|x ids] eqn:Hids.
  - eexists _, _. split; [reflexivity|]. simpl.
    repeat split; try lia; [apply NoDup_nil_2 | intros y Hy; inversion Hy].
  - destruct (rounds_exit statusMap defaultCount E maxRounds
                {| round := 1; feedsToUpdate := x :: ids;
                   finalFailedFeeds := [] |}
                (set_tick (S (tick (set_isRefreshAllMpArticlesRunning true w)))
                   (set_isRefreshAllMpArticlesRunning true w)))
      as (st' & w' & Hex & _).
    rewrite Hex.
    apply rounds_invariant in Hex. destruct Hex as (_ & Hnd & Hsub).
    simpl in Hnd, Hsub. specialize (Hnd (NoDup_nil_2)).
    assert (Hin : forall y, y ∈ finalFailedFeeds st' -> y ∈ x :: ids).
    { intros y Hy. destruct (Hsub y Hy) as [H|H]; [exact H | inversion H]. }
    assert (Hlen : (length (finalFailedFeeds st') <= length (x :: ids))%nat).
    { apply submseteq_length, NoDup_submseteq; assumption. }
    eexists _, _. split; [reflexivity|]. cbn [all_successCount all_errorCount
      all_failedFeeds]. repeat split; try lia; assumption.
Qed.

(** Two enabled feeds, one of which the upstream knows. *)
Lemma refreshAll_accounting_witness :
  exists r w',
    refreshAllMpArticlesAndUpdateFeed statusMap0 15 env_A_only world0
    = (Return r, w')
    /\ all_successCount r + all_errorCount r = 2.
Proof.
  destruct (refreshAll_accounting statusMap0 15 env_A_only world0
              eq_refl eq_refl) as (r & w' & Hrun & Hsum & _).
  exists r, w'. split; [exact Hrun | exact Hsum].
Defined.

(** X19. When the listing of the enabled feeds fails, the [catch] block
    lists them again: if that works the call returns the unexpected-error
    result, with [errorCount] the number of enabled feeds and no
    refresh made; if it fails too, the database error leaves the call.
    The flag is clear afterwards in both cases. *)
Theorem refreshAll_listing_fails statusMap defaultCount E w :
  isRefreshAllMpArticlesRunning w = false ->
  db_fault E (tick w) = true ->
  refreshAllMpArticlesAndUpdateFeed statusMap defaultCount E w
  = (if db_fault E (S (tick w))
     then Throw DatabaseFailure
     else Return {| all_message := "发生意外错误";
                    all_successCount := 0;
                    all_errorCount :=
                      Z.of_nat (length (enabled_ids statusMap w));
                    all_failedFeeds := [] |},
     set_isRefreshAllMpArticlesRunning false (set_tick (S (S (tick w))) w)).
Proof.
  intros Hflag Hdb.
  rewrite (refreshAll_run statusMap defaultCount E w Hflag). cbv zeta.
  unfold refreshAll_try. unfold bind at 1. rewrite feed_findMany_run.
  cbn [tick set_isRefreshAllMpArticlesRunning]. rewrite Hdb.
  unfold refreshAll_catch. unfold bind at 1. rewrite feed_findMany_run.
  cbn [tick set_tick set_isRefreshAllMpArticlesRunning].
  destruct (db_fault E (S (tick w))); [reflexivity|].
  unfold ret, enabled_ids. rewrite length_map. reflexivity.
Qed.

(** The listing fails once: two enabled feeds are reported as errors. *)
Lemma refreshAll_listing_fails_witness :
  refreshAllMpArticlesAndUpdateFeed statusMap0 15 env_listing_fails world0
  = (Return {| all_message := "发生意外错误";
               all_successCount := 0;
               all_errorCount := 2;
               all_failedFeeds := [] |},
     set_isRefreshAllMpArticlesRunning false (set_tick 2 world0)).
Proof.
  exact (refreshAll_listing_fails statusMap0 15 env_listing_fails world0
           eq_refl eq_refl).
Defined.

Lemma fold_Set_add_NoDup feeds_ acc :
  NoDup (acc ++ feeds_) ->
  fold_left (fun s x => Set_add x s) feeds_ acc = (acc ++ feeds_)%list.
Proof.
  revert acc. induction feeds_ as [|x rest IH]; intros acc Hnd; simpl.
  - rewrite app_nil_r. reflexivity.
  - assert (Hx : x ∉ acc).
    { apply NoDup_app in Hnd. destruct Hnd as (_ & Hdisj & _).
      intros Hin. apply (Hdisj x Hin). left. }
    unfold Set_add at 2. rewrite bool_decide_eq_false_2 by exact Hx.
    rewrite IH; rewrite <- app_assoc; [reflexivity | exact Hnd].
Qed.

Section BulkConvergence.

Variable statusMap : StatusMap.
Variable defaultCount : Z.
Variable E : Env.

Lemma refresh_rejected_run mpId page_ w :
  upstream_rejects E mpId ->
  exists w',
    refreshMpArticlesAndUpdateFeed statusMap defaultCount E mpId page_ w
    = (Return (refresh_failed mpId), w').
Proof.
  intros Hrej.
  destruct (getMpArticles_rejected statusMap E mpId page_ 3 w Hrej)
    as (e & w' & Hg).
  exists w'. rewrite refresh_run, refresh_try_unfold, Hg. reflexivity.
Qed.

Lemma round_feeds_all_fail feeds_ acc w :
  (forall x, x ∈ feeds_ -> upstream_rejects E x) ->
  exists w',
    round_feeds statusMap defaultCount E feeds_ acc w
    = (Return (fold_left (fun s x => Set_add x s) feeds_ acc), w').
Proof.
  revert acc w. induction feeds_ as [|y rest IH]; intros acc w Hrej.
  - exists w. reflexivity.
  - simpl. unfold bind at 1. unfold try_catch, bind at 1.
    destruct (refresh_rejected_run y 1 w (Hrej y ltac:(left))) as (w1 & ->).
    unfold ret at 1. unfold bind at 1. unfold sleep, ret at 1.
    change (round_failed (refresh_failed y)) with true. cbv iota.
    apply IH. intros x Hx. apply Hrej. right. exact Hx.
Qed.

Lemma rounds_all_fail ids budget round_ final w :
  ids <> [] ->
  NoDup ids ->
  (forall x, x ∈ ids -> upstream_rejects E x) ->
  exists w',
    rounds statusMap defaultCount E budget
      {| round := round_; feedsToUpdate := ids; finalFailedFeeds := final |} w
    = (Return {| round := round_ + budget;
                 feedsToUpdate := ids;
                 finalFailedFeeds :=
                   match budget with O => final | S _ => ids end |}, w').
Proof.
  intros Hne Hnd Hrej. revert round_ final w.
  induction budget as [|n IH]; intros round_ final w.
  - exists w. simpl. rewrite Nat.add_0_r. reflexivity.
  - destruct (round_feeds_all_fail ids [] w Hrej) as (w1 & Hround).
    rewrite fold_Set_add_NoDup in Hround by exact Hnd. simpl in Hround.
    destruct (IH (S round_) ids w1) as (w' & Hloop).
    exists w'. simpl. unfold bind at 1. rewrite Hround.
    destruct ids as [|x ids']; [contradiction|].
    change (length (x :: ids') =? 0)%nat with false. cbv iota.
    rewrite Hloop.
    replace (S round_ + n)%nat with (round_ + S n)%nat by lia.
    destruct n; reflexivity.
Qed.

End BulkConvergence.

(** X20. When the upstream rejects every request for every enabled feed
    (ids distinct, the listing answers), the bulk refresh uses all of
    its 8 rounds, each over all the feeds, and returns [successCount] 0
    with every enabled feed, in table order, in [failedFeeds]. *)
Theorem refreshAll_all_fail statusMap defaultCount E w :
  isRefreshAllMpArticlesRunning w = false ->
  db_fault E (tick w) = false ->
  enabled_ids statusMap w <> [] ->
  NoDup (enabled_ids statusMap w) ->
  (forall x, x ∈ enabled_ids statusMap w -> upstream_rejects E x) ->
  exists w',
    refreshAllMpArticlesAndUpdateFeed statusMap defaultCount E w
    = (Return {| all_message := "更新流程结束";
                 all_successCount := 0;
                 all_errorCount := Z.of_nat (length (enabled_ids statusMap w));
                 all_failedFeeds := enabled_ids statusMap w |}, w')
    /\ exists w2,
         rounds statusMap defaultCount E maxRounds
           {| round := 1; feedsToUpdate := enabled_ids statusMap w;
              finalFailedFeeds := [] |}
           (set_tick (S (tick w)) (set_isRefreshAllMpArticlesRunning true w))
         = (Return {| round := 9; feedsToUpdate := enabled_ids statusMap w;
                      finalFailedFeeds := enabled_ids statusMap w |}, w2).
Proof.
  intros Hflag Hdb Hne Hnd Hrej.
  destruct (rounds_all_fail statusMap defaultCount E (enabled_ids statusMap w)
              maxRounds 1 []
              (set_tick (S (tick w)) (set_isRefreshAllMpArticlesRunning true w))
              Hne Hnd Hrej) as (w2 & Hloop).
  change (1 + maxRounds)%nat with 9%nat in Hloop. cbn [maxRounds] in Hloop.
  eexists. split; [|exists w2; exact Hloop].
  rewrite (refreshAll_run statusMap defaultCount E w Hflag). cbv zeta.
  rewrite refreshAll_try_run by exact Hdb. cbv zeta.
  change (enabled_ids statusMap (set_isRefreshAllMpArticlesRunning true w))
    with (enabled_ids statusMap w).
  cbn [tick set_isRefreshAllMpArticlesRunning].
  destruct (enabled_ids statusMap w) as [|x ids] eqn:Hids; [contradiction|].
  rewrite Hloop. cbn [finalFailedFeeds]. rewrite Z.sub_diag. reflexivity.
Qed.

(** Both feeds of [world0] against an upstream that rejects everything. *)
Lemma refreshAll_all_fail_witness :
  exists w',
    refreshAllMpArticlesAndUpdateFeed statusMap0 15
      (env_const (HttpFail "WeReadError400")) world0
    = (Return {| all_message := "更新流程结束";
                 all_successCount := 0;
                 all_errorCount := 2;
                 all_failedFeeds := ["MP_A"; "MP_B"] |}, w').
Proof.
  assert (Hne : enabled_ids statusMap0 world0 <> []) by discriminate.
  assert (Hnd : NoDup (enabled_ids statusMap0 world0)).
  { apply (bool_decide_unpack _). vm_compute. exact I. }
  destruct (refreshAll_all_fail statusMap0 15
              (env_const (HttpFail "WeReadError400")) world0
              eq_refl eq_refl Hne Hnd
              ltac:(intros x _ t p a; exists "WeReadError400"; reflexivity))
    as (w' & Hrun & _).
  exists w'. exact Hrun.
Defined.

(** X21. When every refresh of the first round reports no error and at
    least one article (the listing answers, some feed is enabled), the
    bulk refresh stops after that round and returns every enabled feed
    as a success, with an empty [failedFeeds]. *)
Theorem refreshAll_all_succeed statusMap defaultCount E w :
  isRefreshAllMpArticlesRunning w = false ->
  db_fault E (tick w) = false ->
  enabled_ids statusMap w <> [] ->
  (forall x r,
     (x, r) ∈ round_calls statusMap defaultCount E (enabled_ids statusMap w)
                (set_tick (S (tick w))
                   (set_isRefreshAllMpArticlesRunning true w)) ->
     errorCount r <= 0 /\ articlesCount r <> 0) ->
  exists w',
    refreshAllMpArticlesAndUpdateFeed statusMap defaultCount E w
    = (Return {| all_message := "更新流程结束";
                 all_successCount :=
                   Z.of_nat (length (enabled_ids statusMap w));
                 all_errorCount := 0;
                 all_failedFeeds := [] |}, w')
    /\ exists w2,
         rounds statusMap defaultCount E maxRounds
           {| round := 1; feedsToUpdate := enabled_ids statusMap w;
              finalFailedFeeds := [] |}
           (set_tick (S (tick w)) (set_isRefreshAllMpArticlesRunning true w))
         = (Return {| round := 1; feedsToUpdate := enabled_ids statusMap w;
                      finalFailedFeeds := [] |}, w2).
Proof.
  intros Hflag Hdb Hne Hok.
  set (w1 := set_tick (S (tick w)) (set_isRefreshAllMpArticlesRunning true w))
    in *.
  destruct (round_feeds_spec statusMap defaultCount E
              (enabled_ids statusMap w) [] w1) as (failed & w2 & Hround & Hmem).
  assert (Hnil : failed = []).
  { destruct failed as [|x failed]; [reflexivity|]. exfalso.
    destruct (proj1 (Hmem x) ltac:(left)) as [H | (r & Hin & Hf)];
      [inversion H|].
    apply round_failed_iff in Hf. destruct (Hok x r Hin). lia. }
  subst failed.
  assert (Hloop : rounds statusMap defaultCount E maxRounds
                    {| round := 1; feedsToUpdate := enabled_ids statusMap w;
                       finalFailedFeeds := [] |} w1
                  = (Return {| round := 1;
                               feedsToUpdate := enabled_ids statusMap w;
                               finalFailedFeeds := [] |}, w2)).
  { unfold maxRounds. simpl. unfold bind at 1. rewrite Hround. reflexivity. }
  eexists. split; [|exists w2; exact Hloop].
  rewrite (refreshAll_run statusMap defaultCount E w Hflag). cbv zeta.
  rewrite refreshAll_try_run by exact Hdb. cbv zeta.
  change (enabled_ids statusMap (set_isRefreshAllMpArticlesRunning true w))
    with (enabled_ids statusMap w).
  cbn [tick set_isRefreshAllMpArticlesRunning]. fold w1.
  destruct (enabled_ids statusMap w) as [|x ids] eqn:Hids; [contradiction|].
  rewrite Hloop. cbn [finalFailedFeeds length]. rewrite Z.sub_0_r.
  reflexivity.
Qed.

(** Both feeds of [world0] against an upstream with two articles each. *)
Lemma refreshAll_all_succeed_witness :
  exists w',
    refreshAllMpArticlesAndUpdateFeed statusMap0 15
      (env_const (HttpOk [item1; item2])) world0
    = (Return {| all_message := "更新流程结束";
                 all_successCount := 2;
                 all_errorCount := 0;
                 all_failedFeeds := [] |}, w').
Proof.
  assert (Hne : enabled_ids statusMap0 world0 <> []) by discriminate.
  destruct (refreshAll_all_succeed statusMap0 15
              (env_const (HttpOk [item1; item2])) world0
              eq_refl eq_refl Hne) as (w' & Hrun & _).
  - intros x r Hin. vm_compute in Hin.
    apply elem_of_cons in Hin. destruct Hin as [Hin | Hin].
    { injection Hin as -> ->. split; [vm_compute; discriminate | discriminate]. }
    apply elem_of_cons in Hin. destruct Hin as [Hin | Hin].
    { injection Hin as -> ->. split; [vm_compute; discriminate | discriminate]. }
    inversion Hin.
  - exists w'. exact Hrun.
Defined.

(** ** What the crawler leaves alone *)

(** X22. A resumption of the crawl of [mpId] changes the row of no
    other feed, adds, removes, enables or disables no feed, and never
    writes the bulk-refresh flag; the call itself, up to its first
    [await], writes nothing but the crawl record. *)
Theorem crawl_touches_one_feed statusMap defaultCount E mpId pc w :
  let w' := (resume statusMap defaultCount E mpId pc w).2 in
  map feed_id (feeds w') = map feed_id (feeds w)
  /\ map feed_status (feeds w') = map feed_status (feeds w)
  /\ (forall k, k <> mpId -> find_feed k (feeds w') = find_feed k (feeds w))
  /\ isRefreshAllMpArticlesRunning w' = isRefreshAllMpArticlesRunning w
  /\ exists rec,
       (getHistoryMpArticles mpId w).2 = set_inProgressHistoryMp rec w.
Proof.
  cbv zeta.
  assert (Hcall : exists rec,
            (getHistoryMpArticles mpId w).2 = set_inProgressHistoryMp rec w).
  { unfold getHistoryMpArticles.
    destruct (String.eqb (id (inProgressHistoryMp w)) mpId).
    - exists (inProgressHistoryMp w). destruct w; reflexivity.
    - simpl. destruct (String.eqb mpId ""); eexists; reflexivity. }
  destruct pc as [| |i p|i|o]; unfold resume.
  - rewrite (surjective_pairing (feed_findFirstOrThrow E mpId w)).
    unfold feed_findFirstOrThrow. unfold_monad. simpl.
    destruct (db_fault E (tick w)); simpl; [repeat split; exact Hcall|].
    destruct (find_feed mpId (feeds w)) as [f|]; simpl;
      [destruct (feed_hasHistory f =? 0)|]; repeat split; exact Hcall.
  - unfold article_count. unfold_monad. simpl.
    destruct (db_fault E (tick w)); simpl; [repeat split; exact Hcall|].
    destruct (negb _); repeat split; exact Hcall.
  - destruct (refreshMpArticlesAndUpdateFeed statusMap defaultCount E mpId p w)
      as [[r|e] w1] eqn:Hrun;
      pose proof (refresh_feed_frame _ _ _ _ _ _ _ _ Hrun) as (H1 & H2 & H3);
      pose proof (refresh_keeps _ _ _ _ _ _ _ _ Hrun) as (_ & H4 & _);
      [destruct (default 1 (hasHistory r) <? 1)|];
      simpl; repeat split; assumption.
  - destruct i as [|i]; simpl; [repeat split; exact Hcall|].
    destruct (negb _); repeat split; exact Hcall.
  - repeat split. exact Hcall.
Qed.

(** A resumption of the crawl of [MP_A] and the row of [MP_B]. *)
Lemma crawl_touches_one_feed_witness :
  find_feed "MP_B"
    (feeds (resume statusMap0 15 (env_const (HttpOk [item1; item2])) "MP_A"
              (AwaitRefresh 990 3) world_crawling_A).2)
  = Some feedB.
Proof.
  assert (Hne : "MP_B" <> "MP_A") by discriminate.
  exact (proj1 (proj2 (proj2 (crawl_touches_one_feed statusMap0 15
                  (env_const (HttpOk [item1; item2])) "MP_A"
                  (AwaitRefresh 990 3) world_crawling_A)))
           "MP_B" Hne).
Defined.
